(** * Password Security Analysis Engine: a shallow embedding

    The development embeds, function by function, the algorithmic core of
    the credential manager:

    - [src/utils/passwordGenerator.ts]: [PasswordGenerator.generate],
      [PasswordGenerator.getRandomChar], [PasswordGenerator.analyzeStrength]
      and [calculatePasswordStrength];
    - [src/components/health/PasswordHealth.tsx]: [analyzePasswordHealth]
      and [getDuplicatePasswords];
    - [src/components/import/ImportPasswords.tsx]: [parseCSV] and
      [handleImport].

    Conventions of the model.

    - A JavaScript string is a [string]; one [ascii] stands for one code
      unit, so the model covers the strings whose code units are below 256.
    - [Math.random()] is read from an entropy source [nat -> N]: the [k]-th
      call returns [(source k mod 2^53) / 2^53], a number of [[0,1)].
    - [Array.prototype.sort] belongs to the engine.  ECMAScript only
      promises that it returns a permutation of its input (the order is
      implementation-defined when the comparator is inconsistent), so the
      sort is a parameter with exactly that law.
    - JavaScript numbers that the code only uses as integers are [Z] or
      [nat]; the health score, the one place where the code divides, is
      computed in exact rational arithmetic [Q].
    - A thrown [Error] is the [Throw] constructor of [result]. *)

From Stdlib Require Import Bool List Arith ZArith NArith QArith Qminmax Lia.
From Stdlib Require Import Ascii String Permutation DecimalString.
Import ListNotations.

Open Scope string_scope.
Open Scope list_scope.
Open Scope nat_scope.

(* ================================================================== *)
(** * Part I: the embedding *)
(* ================================================================== *)

(** ** Results of fallible code *)

Inductive result (A : Type) : Type :=
| Ok (a : A)
| Throw (message : string).
Arguments Ok {A} a.
Arguments Throw {A} message.

(** ** JavaScript string primitives *)

Definition chars (s : string) : list ascii := list_ascii_of_string s.
Definition join (l : list ascii) : string := string_of_list_ascii l.

(** [s.charAt(i)]: the one-character string at [i], [''] out of range. *)
Definition charAt (s : string) (i : nat) : string :=
  match String.get i s with
  | Some c => String c EmptyString
  | None => EmptyString
  end.

(** [s.includes(c)] for a one-character [c]. *)
Definition includes (s : string) (c : ascii) : bool :=
  existsb (Ascii.eqb c) (chars s).

Definition code (c : ascii) : nat := nat_of_ascii c.

Definition in_range (lo hi : ascii) (c : ascii) : bool :=
  (code lo <=? code c) && (code c <=? code hi).

Definition is_lower (c : ascii) : bool := in_range "a" "z" c.
Definition is_upper (c : ascii) : bool := in_range "A" "Z" c.
Definition is_digit (c : ascii) : bool := in_range "0" "9" c.
Definition is_alnum (c : ascii) : bool := is_lower c || is_upper c || is_digit c.

(** Line terminators among the code units below 256: LF and CR.  The
    regular-expression atom [.] matches every other code unit. *)
Definition is_line_terminator (c : ascii) : bool :=
  (code c =? 10) || (code c =? 13).
Definition dot (c : ascii) : bool := negb (is_line_terminator c).

(** *** A regular-expression fragment

    Every pattern of the program is an alternation of fixed sequences of
    character classes, possibly followed by an unbounded repetition of the
    last class, and [RegExp.prototype.test] only asks whether a match
    exists.  A pattern is a list of character predicates. *)

Definition pattern := list (ascii -> bool).

Fixpoint match_here (p : pattern) (s : list ascii) : bool :=
  match p, s with
  | [], _ => true
  | _ :: _, [] => false
  | f :: p', c :: s' => f c && match_here p' s'
  end.

Fixpoint search (p : pattern) (s : list ascii) : bool :=
  match_here p s ||
  match s with
  | [] => false
  | _ :: s' => search p s'
  end.

Definition test (p : pattern) (s : string) : bool := search p (chars s).

(** Case folding of the [i] flag on code units below 128. *)
Definition to_lower_ascii (c : ascii) : ascii :=
  if is_upper c then ascii_of_nat (code c + 32) else c.

Definition ci (c : ascii) : ascii -> bool :=
  fun d => Ascii.eqb (to_lower_ascii d) (to_lower_ascii c).

Definition literal_i (w : string) : pattern := map ci (chars w).

(** [/[a-z]/], [/[A-Z]/], [/[0-9]/], [/[^a-zA-Z0-9]/]. *)
Definition re_lower : pattern := [is_lower].
Definition re_upper : pattern := [is_upper].
Definition re_digit : pattern := [is_digit].
Definition re_non_alnum : pattern := [fun c => negb (is_alnum c)].

(** [/[!@#$%^&*()_+\-=[\]{}|;:,.<>?]/]. *)
Definition re_symbol_class : string := "!@#$%^&*()_+-=[]{}|;:,.<>?".
Definition re_symbol : pattern := [includes re_symbol_class].

(** [/(.)\\1{2,}/] as the source writes it.  Inside a regular-expression
    literal [\\] is an escaped backslash, so the pattern reads: any
    character but a line terminator, then a backslash, then the digit [1]
    two times or more.  A match exists exactly when the four-element
    prefix of the pattern matches. *)
Definition re_repeated : pattern :=
  [dot; Ascii.eqb "\"; Ascii.eqb "1"; Ascii.eqb "1"].

(** [/123|abc|qwe|password|admin/i]. *)
Definition common_words : list string :=
  ["123"; "abc"; "qwe"; "password"; "admin"].
Definition test_common (s : string) : bool :=
  existsb (fun w => test (literal_i w) s) common_words.

(** ** Entropy: [Math.random] *)

Definition two53 : N := 9007199254740992.

(** A computation that draws from the entropy source: it receives the
    number of draws made so far and returns the new count. *)
Definition Rand (A : Type) : Type := nat -> A * nat.

Definition ret {A} (a : A) : Rand A := fun k => (a, k).
Definition bind {A B} (m : Rand A) (f : A -> Rand B) : Rand B :=
  fun k => let (a, k') := m k in f a k'.

Declare Scope rand_scope.
Delimit Scope rand_scope with rand.
Notation "x <- m ;; f" := (bind m (fun x => f))
  (at level 61, m at next level, right associativity) : rand_scope.
Open Scope rand_scope.

Module GeneratorOptions.
Record t : Type := mk {
  length : Z;
  includeUppercase : bool;
  includeLowercase : bool;
  includeNumbers : bool;
  includeSymbols : bool;
  excludeSimilar : bool
}.
End GeneratorOptions.

Section Generator.

(** The entropy source and the engine's sort. *)
Variable source : nat -> N.
Variable Array_sort :
  (ascii -> ascii -> Rand Z) -> list ascii -> Rand (list ascii).

(** [Math.random()], as the numerator over [2^53]. *)
Definition Math_random : Rand N := fun k => (N.modulo (source k) two53, S k).

(** [Math.floor(Math.random() * n)]. *)
Definition random_below (n : nat) : Rand nat :=
  u <- Math_random ;;
  ret (N.to_nat (N.div (u * N.of_nat n) two53)).

(** [Math.random() - 0.5], by its sign. *)
Definition random_sign : Rand Z :=
  u <- Math_random ;;
  ret (Z.of_N (2 * u) - Z.of_N two53)%Z.

Definition UPPERCASE : string := "ABCDEFGHIJKLMNOPQRSTUVWXYZ".
Definition LOWERCASE : string := "abcdefghijklmnopqrstuvwxyz".
Definition NUMBERS : string := "0123456789".
Definition SYMBOLS : string := "!@#$%^&*()_+-=[]{}|;:,.<>?".
Definition SIMILAR : string := "il1Lo0O".

(** [charset.split('').filter(char => !SIMILAR.includes(char)).join('')] *)
Definition withoutSimilar (charset : string) : string :=
  join (filter (fun char => negb (includes SIMILAR char)) (chars charset)).

Definition getRandomChar (charset : string) (excludeSimilar : bool)
  : Rand string :=
  let chars := if excludeSimilar then withoutSimilar charset else charset in
  i <- random_below (String.length chars) ;;
  ret (charAt chars i).

(** The loop [for (let i = password.length; i < options.length; i++)]:
    [n] is the number of iterations left. *)
Fixpoint fill (n : nat) (charset password : string) : Rand string :=
  match n with
  | O => ret password
  | S n' =>
      i <- random_below (String.length charset) ;;
      fill n' charset (password ++ charAt charset i)%string
  end.

Definition generate (options : GeneratorOptions.t) : Rand (result string) :=
  let charset := "" in
  let charset := if GeneratorOptions.includeUppercase options
                 then (charset ++ UPPERCASE)%string else charset in
  let charset := if GeneratorOptions.includeLowercase options
                 then (charset ++ LOWERCASE)%string else charset in
  let charset := if GeneratorOptions.includeNumbers options
                 then (charset ++ NUMBERS)%string else charset in
  let charset := if GeneratorOptions.includeSymbols options
                 then (charset ++ SYMBOLS)%string else charset in
  let charset := if GeneratorOptions.excludeSimilar options
                 then withoutSimilar charset else charset in
  if String.length charset =? 0 then
    ret (Throw "At least one character type must be selected")
  else
    let password := "" in
    password <-
      (if GeneratorOptions.includeUppercase options then
         c <- getRandomChar UPPERCASE (GeneratorOptions.excludeSimilar options) ;;
         ret (password ++ c)%string
       else ret password) ;;
    password <-
      (if GeneratorOptions.includeLowercase options then
         c <- getRandomChar LOWERCASE (GeneratorOptions.excludeSimilar options) ;;
         ret (password ++ c)%string
       else ret password) ;;
    password <-
      (if GeneratorOptions.includeNumbers options then
         c <- getRandomChar NUMBERS (GeneratorOptions.excludeSimilar options) ;;
         ret (password ++ c)%string
       else ret password) ;;
    password <-
      (if GeneratorOptions.includeSymbols options then
         c <- getRandomChar SYMBOLS (GeneratorOptions.excludeSimilar options) ;;
         ret (password ++ c)%string
       else ret password) ;;
    password <-
      fill (Z.to_nat (GeneratorOptions.length options
                      - Z.of_nat (String.length password)))
           charset password ;;
    shuffled <- Array_sort (fun _ _ => random_sign) (chars password) ;;
    ret (Ok (join shuffled)).

End Generator.

(** A reference engine sort: insertion from the right, one comparator call
    per comparison; [a] goes before [b] when the comparator is negative. *)
Section ReferenceSort.
Variable cmp : ascii -> ascii -> Rand Z.

Fixpoint sort_insert (x : ascii) (sorted : list ascii) : Rand (list ascii) :=
  match sorted with
  | [] => ret [x]
  | y :: rest =>
      c <- cmp x y ;;
      if (c <? 0)%Z then ret (x :: y :: rest)
      else (r <- sort_insert x rest ;; ret (y :: r))
  end.

Fixpoint insertion_sort (l : list ascii) : Rand (list ascii) :=
  match l with
  | [] => ret []
  | x :: rest => s <- insertion_sort rest ;; sort_insert x s
  end.
End ReferenceSort.

(** The requested classes, as the pools they draw from. *)
Definition enabled_pools (o : GeneratorOptions.t) : list string :=
  (if GeneratorOptions.includeUppercase o then [UPPERCASE] else []) ++
  (if GeneratorOptions.includeLowercase o then [LOWERCASE] else []) ++
  (if GeneratorOptions.includeNumbers o then [NUMBERS] else []) ++
  (if GeneratorOptions.includeSymbols o then [SYMBOLS] else []).

(** A valid request as the specification words it: a length of at least
    one and at least one class. *)
Definition valid_request (o : GeneratorOptions.t) : Prop :=
  (1 <= GeneratorOptions.length o)%Z /\ enabled_pools o <> [].

(** The pool a class really draws from, and the working alphabet. *)
Definition pool_of (excludeSimilar : bool) (pool : string) : string :=
  if excludeSimilar then withoutSimilar pool else pool.

Definition working_charset (o : GeneratorOptions.t) : string :=
  pool_of (GeneratorOptions.excludeSimilar o)
          (String.concat "" (enabled_pools o)).

(** The request of the smallest length with every class enabled, and a
    constant entropy source. *)
Definition short_request : GeneratorOptions.t :=
  GeneratorOptions.mk 1 true true true true false.

Definition zero_source : nat -> N := fun _ => 0%N.

Definition unambiguous_request : GeneratorOptions.t :=
  GeneratorOptions.mk 12 true true true false true.

(** ** Truthiness: [a || b] on strings

    [undefined] and the empty string are falsy, every other string is
    truthy. *)
Definition js_or (a : option string) (b : string) : string :=
  match a with
  | Some EmptyString | None => b
  | Some s => s
  end.

(** ** The strength scorers *)

Module StrengthLevel.
Record t : Type := mk { label : string; color : string }.
End StrengthLevel.

Module PasswordStrength.
Record t : Type := mk {
  score : Z;
  label : string;
  color : string;
  suggestions : list string
}.
End PasswordStrength.

Definition strengthLevels : list StrengthLevel.t :=
  [ StrengthLevel.mk "Very Weak" "strength-very-weak";
    StrengthLevel.mk "Weak" "strength-weak";
    StrengthLevel.mk "Fair" "strength-fair";
    StrengthLevel.mk "Good" "strength-good";
    StrengthLevel.mk "Strong" "strength-strong" ].

(** [PasswordGenerator.analyzeStrength]: the qualitative scale. *)
Definition analyzeStrength (password : string) : PasswordStrength.t :=
  let score := 0%Z in
  let suggestions : list string := [] in
  (* Length check *)
  let '(score, suggestions) :=
    if 12 <=? String.length password then ((score + 2)%Z, suggestions)
    else if 8 <=? String.length password then ((score + 1)%Z, suggestions)
    else (score, suggestions ++ ["Use at least 8 characters"]) in
  (* Character variety *)
  let '(score, suggestions) :=
    if test re_lower password then ((score + 1)%Z, suggestions)
    else (score, suggestions ++ ["Include lowercase letters"]) in
  let '(score, suggestions) :=
    if test re_upper password then ((score + 1)%Z, suggestions)
    else (score, suggestions ++ ["Include uppercase letters"]) in
  let '(score, suggestions) :=
    if test re_digit password then ((score + 1)%Z, suggestions)
    else (score, suggestions ++ ["Include numbers"]) in
  let '(score, suggestions) :=
    if test re_non_alnum password then ((score + 1)%Z, suggestions)
    else (score, suggestions ++ ["Include special characters"]) in
  (* Bonus points *)
  let score := if 16 <=? String.length password then (score + 1)%Z else score in
  let score := if test re_symbol password then (score + 1)%Z else score in
  (* Penalties *)
  let score := if test re_repeated password then (score - 1)%Z else score in
  let score := if test_common password then (score - 2)%Z else score in
  let score := Z.max 0 (Z.min 5 score) in
  let level := nth_error strengthLevels (Z.to_nat score) in
  PasswordStrength.mk
    score
    (js_or (option_map StrengthLevel.label level) "Very Weak")
    (js_or (option_map StrengthLevel.color level) "strength-very-weak")
    suggestions.

Module StrengthBreakdown.
Record t : Type := mk {
  score : Z;
  hasUppercase : bool;
  hasLowercase : bool;
  hasNumbers : bool;
  hasSymbols : bool
}.
End StrengthBreakdown.

(** [calculatePasswordStrength]: the quantitative scale. *)
Definition calculatePasswordStrength (password : string) : StrengthBreakdown.t :=
  let hasUppercase := test re_upper password in
  let hasLowercase := test re_lower password in
  let hasNumbers := test re_digit password in
  let hasSymbols := test re_non_alnum password in
  let score := 0%Z in
  (* Length scoring *)
  let score :=
    if 16 <=? String.length password then (score + 30)%Z
    else if 12 <=? String.length password then (score + 25)%Z
    else if 8 <=? String.length password then (score + 15)%Z
    else if 6 <=? String.length password then (score + 10)%Z
    else (score + 5)%Z in
  (* Character variety scoring *)
  let score := if hasUppercase then (score + 15)%Z else score in
  let score := if hasLowercase then (score + 15)%Z else score in
  let score := if hasNumbers then (score + 15)%Z else score in
  let score := if hasSymbols then (score + 25)%Z else score in
  (* Bonus for variety *)
  let varietyCount :=
    List.length
      (filter (fun b : bool => b)
              [hasUppercase; hasLowercase; hasNumbers; hasSymbols]) in
  let score := if 3 <=? varietyCount then (score + 10)%Z else score in
  let score := if varietyCount =? 4 then (score + 10)%Z else score in
  (* Penalties *)
  let score := if test re_repeated password then (score - 10)%Z else score in
  let score := if test_common password then (score - 20)%Z else score in
  let score := Z.max 0 (Z.min 100 score) in
  StrengthBreakdown.mk score hasUppercase hasLowercase hasNumbers hasSymbols.

(** The repeated-character condition in the specification's words: some
    character occurs three or more times in a row. *)
Fixpoint has_run3 (s : list ascii) : bool :=
  match s with
  | a :: ((b :: c :: _) as rest) =>
      (Ascii.eqb a b && Ascii.eqb b c) || has_run3 rest
  | _ => false
  end.

(** The class-presence flags of the quantitative result. *)
Definition class_flags (r : StrengthBreakdown.t) : bool * bool * bool * bool :=
  (StrengthBreakdown.hasUppercase r, StrengthBreakdown.hasLowercase r,
   StrengthBreakdown.hasNumbers r, StrengthBreakdown.hasSymbols r).

(** ** The vault health analyzer *)

Module Password.
(** The fields of a stored record that the analyzer reads; [password] is
    the plain-text field the import writes next to [encryptedPassword],
    absent on records that lack it. *)
Record t : Type := mk {
  id : string;
  title : string;
  password : option string;
  encryptedPassword : string;
  category : string;
  updatedAt : string
}.
End Password.

Module HealthStats.
Record t : Type := mk {
  total : nat;
  weak : nat;
  duplicate : nat;
  old : nat;
  strong : nat;
  score : Q
}.
End HealthStats.

(** [password.password || password.encryptedPassword] *)
Definition passwordValue (password : Password.t) : string :=
  js_or (Password.password password) (Password.encryptedPassword password).

Definition Q_of_nat (n : nat) : Q := inject_Z (Z.of_nat n).

Section Health.

(** [new Date(s)] as its time value, [None] for an invalid date; and the
    time value of [sixMonthsAgo], the clock reading moved back by six
    calendar months. *)
Variable Date_parse : string -> option Z.
Variable sixMonthsAgo : Z.

Definition is_old (password : Password.t) : bool :=
  match Date_parse (Password.updatedAt password) with
  | Some updatedDate => (updatedDate <? sixMonthsAgo)%Z
  | None => false
  end.

(** The body of [passwordList.forEach] on the pair of [stats] and
    [passwordValues]. *)
Definition analyze_record (acc : HealthStats.t * list string)
           (password : Password.t) : HealthStats.t * list string :=
  let '(HealthStats.mk total weak duplicate old strong score, passwordValues) := acc in
  let strength := calculatePasswordStrength (passwordValue password) in
  (* Check weakness *)
  let '(weak, strong) :=
    if (StrengthBreakdown.score strength <? 60)%Z then (S weak, strong)
    else if (80 <=? StrengthBreakdown.score strength)%Z then (weak, S strong)
    else (weak, strong) in
  (* Check for duplicates *)
  let '(duplicate, passwordValues) :=
    if existsb (String.eqb (passwordValue password)) passwordValues
    then (S duplicate, passwordValues)
    else (duplicate, passwordValues ++ [passwordValue password]) in
  (* Check age (older than 6 months) *)
  let old := if is_old password then S old else old in
  (HealthStats.mk total weak duplicate old strong score, passwordValues).

Definition analyzePasswordHealth (passwordList : list Password.t)
  : HealthStats.t :=
  let stats := HealthStats.mk (List.length passwordList) 0 0 0 0 0%Q in
  let '(HealthStats.mk total weak duplicate old strong score, _) :=
    fold_left analyze_record passwordList (stats, []) in
  (* Calculate overall security score *)
  let score :=
    if 0 <? total then
      let weakPenalty := ((Q_of_nat weak / Q_of_nat total) * 40)%Q in
      let duplicatePenalty := ((Q_of_nat duplicate / Q_of_nat total) * 30)%Q in
      let oldPenalty := ((Q_of_nat old / Q_of_nat total) * 20)%Q in
      let strongBonus := ((Q_of_nat strong / Q_of_nat total) * 10)%Q in
      Qmax 0 (Qmin 100 (100 - weakPenalty - duplicatePenalty - oldPenalty
                        + strongBonus))%Q
    else score in
  HealthStats.mk total weak duplicate old strong score.

End Health.

(** *** Plain objects used as maps

    An object literal [{}] holds its own properties in creation order and
    inherits from [Object.prototype].  [Object.values] lists the values of
    the array-index keys first, in ascending numeric order, then those of
    the other keys in creation order. *)

Definition JsObject (V : Type) : Type := list (string * V).

Definition Object_prototype_keys : list string :=
  [ "constructor"; "__defineGetter__"; "__defineSetter__"; "hasOwnProperty";
    "__lookupGetter__"; "__lookupSetter__"; "isPrototypeOf";
    "propertyIsEnumerable"; "toString"; "valueOf"; "__proto__";
    "toLocaleString" ].

Definition inherited (key : string) : bool :=
  existsb (String.eqb key) Object_prototype_keys.

Fixpoint own_get {V} (o : JsObject V) (key : string) : option V :=
  match o with
  | [] => None
  | (k, v) :: rest => if String.eqb k key then Some v else own_get rest key
  end.

Fixpoint own_set {V} (o : JsObject V) (key : string) (v : V) : JsObject V :=
  match o with
  | [] => [(key, v)]
  | (k, w) :: rest =>
      if String.eqb k key then (k, v) :: rest else (k, w) :: own_set rest key v
  end.

(** The numeric value of a canonical decimal string. *)
Fixpoint decimal_value (acc : N) (s : list ascii) : option N :=
  match s with
  | [] => Some acc
  | c :: rest =>
      if is_digit c
      then decimal_value (acc * 10 + N.of_nat (code c - 48)) rest
      else None
  end.

(** An array index is a canonical numeric string below [2^32 - 1]. *)
Definition array_index (key : string) : option N :=
  match chars key with
  | [] => None
  | c :: rest =>
      if Ascii.eqb c "0" && negb (List.length rest =? 0) then None
      else match decimal_value 0 (c :: rest) with
           | Some n => if (n <? 4294967295)%N then Some n else None
           | None => None
           end
  end.

Fixpoint insert_index {V} (n : N) (v : V) (l : list (N * V)) : list (N * V) :=
  match l with
  | [] => [(n, v)]
  | (m, w) :: rest =>
      if (n <? m)%N then (n, v) :: (m, w) :: rest
      else (m, w) :: insert_index n v rest
  end.

Fixpoint index_entries {V} (o : JsObject V) : list (N * V) :=
  match o with
  | [] => []
  | (k, v) :: rest =>
      match array_index k with
      | Some n => insert_index n v (index_entries rest)
      | None => index_entries rest
      end
  end.

Fixpoint named_entries {V} (o : JsObject V) : list V :=
  match o with
  | [] => []
  | (k, v) :: rest =>
      match array_index k with
      | Some _ => named_entries rest
      | None => v :: named_entries rest
      end
  end.

Definition Object_values {V} (o : JsObject V) : list V :=
  map snd (index_entries o) ++ named_entries o.

(** The body of [passwords.forEach] in [getDuplicatePasswords].  A key
    that names a property of [Object.prototype] reads as that inherited,
    truthy value: no group is created and [.push] is not a function. *)
Definition group_record (groups : result (JsObject (list Password.t)))
           (password : Password.t) : result (JsObject (list Password.t)) :=
  match groups with
  | Throw e => Throw e
  | Ok passwordGroups =>
      match own_get passwordGroups (passwordValue password) with
      | Some group =>
          Ok (own_set passwordGroups (passwordValue password)
                      (group ++ [password]))
      | None =>
          if inherited (passwordValue password)
          then Throw "passwordGroups[passwordValue].push is not a function"
          else Ok (own_set passwordGroups (passwordValue password) [password])
      end
  end.

Definition getDuplicatePasswords (passwords : list Password.t)
  : result (list Password.t) :=
  match fold_left group_record passwords (Ok []) with
  | Throw e => Throw e
  | Ok passwordGroups =>
      Ok (List.concat
            (filter (fun group => 1 <? List.length group)
                    (Object_values passwordGroups)))
  end.

(** *** The composite score in the specification's words *)

Definition clamp (lo hi x : Q) : Q := Qmax lo (Qmin hi x).

(** A record is a duplicate when its value appeared earlier; the list is
    read latest record first. *)
Fixpoint earlier_count (latest_first : list string) : nat :=
  match latest_first with
  | [] => 0
  | v :: earlier =>
      (if existsb (String.eqb v) earlier then 1 else 0) + earlier_count earlier
  end.

Section HealthSpec.
Variable Date_parse : string -> option Z.
Variable sixMonthsAgo : Z.
Variable records : list Password.t.

Definition spec_total : nat := List.length records.
Definition spec_weakCount : nat :=
  List.length
    (filter (fun p => (StrengthBreakdown.score
                         (calculatePasswordStrength (passwordValue p)) <? 60)%Z)
            records).
Definition spec_strongCount : nat :=
  List.length
    (filter (fun p => (80 <=? StrengthBreakdown.score
                         (calculatePasswordStrength (passwordValue p)))%Z)
            records).
Definition spec_staleCount : nat :=
  List.length (filter (is_old Date_parse sixMonthsAgo) records).
Definition spec_duplicateCount : nat :=
  earlier_count (rev (map passwordValue records)).

Definition ratio (count : nat) : Q := (Q_of_nat count / Q_of_nat spec_total)%Q.

Definition spec_compositeScore : Q :=
  if spec_total =? 0 then 0%Q
  else clamp 0 100
         (100 - 40 * ratio spec_weakCount - 30 * ratio spec_duplicateCount
          - 20 * ratio spec_staleCount + 10 * ratio spec_strongCount)%Q.
End HealthSpec.

(** The three records of the duplicate fixture carry these values. *)
Definition fixture_record (id secret : string) : Password.t :=
  Password.mk id id (Some secret) secret "Personal" "2024-01-01T00:00:00.000Z".

(** ** The import normalizer: CSV *)

Definition dquote : ascii := ascii_of_nat 34.

(** [String(n)] for a non-negative integer. *)
Definition decimal (n : nat) : string := NilZero.string_of_uint (Nat.to_uint n).

(** [s.split(sep)] for a one-character separator: the empty string splits
    into one empty piece. *)
Fixpoint split (sep : ascii) (s : string) : list string :=
  match s with
  | EmptyString => [EmptyString]
  | String c rest =>
      if Ascii.eqb c sep then EmptyString :: split sep rest
      else match split sep rest with
           | [] => [String c EmptyString]
           | piece :: pieces => String c piece :: pieces
           end
  end.

(** White space and line terminators among the code units below 256. *)
Definition is_space (c : ascii) : bool :=
  existsb (Nat.eqb (code c)) [9; 10; 11; 12; 13; 32; 160].

Fixpoint trimStart (l : list ascii) : list ascii :=
  match l with
  | [] => []
  | c :: rest => if is_space c then trimStart rest else l
  end.

(** [s.trim()] *)
Definition trim (s : string) : string :=
  join (rev (trimStart (rev (trimStart (chars s))))).

(** [s.toLowerCase()] on the code units below 256. *)
Definition lower_char (c : ascii) : ascii :=
  if ((65 <=? code c) && (code c <=? 90))
     || ((192 <=? code c) && (code c <=? 222) && negb (code c =? 215))
  then ascii_of_nat (code c + 32) else c.

Definition toLowerCase (s : string) : string := join (map lower_char (chars s)).

(** [v.replace(re, '$1')] where [re] anchors a double quote at each end
    around a group of any characters but line terminators: a value that
    starts and ends with a double quote, with no line terminator in
    between, loses both quotes. *)
Definition unquote (v : string) : string :=
  match chars v with
  | first :: rest =>
      match rev rest with
      | last :: middle_reversed =>
          if Ascii.eqb first dquote && Ascii.eqb last dquote
             && forallb dot middle_reversed
          then join (rev middle_reversed)
          else v
      | [] => v
      end
  | [] => v
  end.

(** A string is truthy when it is not empty. *)
Definition truthy (s : string) : bool := negb (String.eqb s EmptyString).

Module ImportedPassword.
Record t : Type := mk {
  title : string;
  username : option string;
  email : option string;
  password : string;
  websiteUrl : option string;
  category : string;
  notes : option string
}.
End ImportedPassword.

(** One step of [headers.forEach((header, index) => ...)]: the [switch]. *)
Definition assign_header (header value : string) (password : ImportedPassword.t)
  : ImportedPassword.t :=
  let '(ImportedPassword.mk title username email pw websiteUrl category notes) :=
    password in
  if String.eqb header "title" || String.eqb header "name"
     || String.eqb header "site"
  then ImportedPassword.mk value username email pw websiteUrl category notes
  else if String.eqb header "username" || String.eqb header "user"
  then ImportedPassword.mk title (Some value) email pw websiteUrl category notes
  else if String.eqb header "email"
  then ImportedPassword.mk title username (Some value) pw websiteUrl category notes
  else if String.eqb header "password"
  then ImportedPassword.mk title username email value websiteUrl category notes
  else if String.eqb header "url" || String.eqb header "website"
          || String.eqb header "websiteurl"
  then ImportedPassword.mk title username email pw (Some value) category notes
  else if String.eqb header "category" || String.eqb header "folder"
  then ImportedPassword.mk title username email pw websiteUrl
         (js_or (Some value) "Personal") notes
  else if String.eqb header "notes" || String.eqb header "note"
  then ImportedPassword.mk title username email pw websiteUrl category (Some value)
  else password.

(** [headers.forEach]; [index] is the position of the first header left,
    and [values[index] || ''] the value it reads. *)
Fixpoint assign_headers (headers : list string) (index : nat)
         (values : list string) (password : ImportedPassword.t)
  : ImportedPassword.t :=
  match headers with
  | [] => password
  | header :: rest =>
      let value := js_or (nth_error values index) "" in
      assign_headers rest (S index) values (assign_header header value password)
  end.

(** [lines[i].split(',').map(v => v.trim().replace(re, '$1'))], [re] as
    in [unquote]. *)
Definition csv_values (line : string) : list string :=
  map (fun v => unquote (trim v)) (split "," line).

(** The record a data row resolves to, before the title fallback. *)
Definition resolve_row (headers : list string) (line : string)
  : ImportedPassword.t :=
  assign_headers headers 0 (csv_values line)
    (ImportedPassword.mk "" None None "" None "Personal" None).

(** The title fallback of row [i]. *)
Definition with_title_fallback (i : nat) (password : ImportedPassword.t)
  : ImportedPassword.t :=
  if truthy (ImportedPassword.title password) then password
  else
    let '(ImportedPassword.mk _ username email pw websiteUrl category notes) :=
      password in
    ImportedPassword.mk
      (js_or websiteUrl ("Imported Password " ++ decimal i)%string)
      username email pw websiteUrl category notes.

(** The loop [for (let i = 1; i < lines.length; i++)], on the lines from
    [i] on. *)
Fixpoint csv_rows (headers : list string) (i : nat) (rows : list string)
         (passwords : list ImportedPassword.t) : list ImportedPassword.t :=
  match rows with
  | [] => passwords
  | line :: rest =>
      let password := with_title_fallback i (resolve_row headers line) in
      let passwords :=
        if truthy (ImportedPassword.password password)
        then passwords ++ [password] else passwords in
      csv_rows headers (S i) rest passwords
  end.

(** [text.split('\n').filter(line => line.trim())] *)
Definition csv_lines (text : string) : list string :=
  filter (fun line => truthy (trim line)) (split (ascii_of_nat 10) text).

Definition csv_headers (lines : list string) : list string :=
  map (fun h => toLowerCase (trim h)) (split "," (nth 0 lines "")).

Definition parseCSV (text : string) : result (list ImportedPassword.t) :=
  let lines := csv_lines text in
  if List.length lines <? 2 then
    Throw "CSV must have at least a header row and one data row"
  else
    let headers := csv_headers lines in
    let passwords : list ImportedPassword.t := [] in
    Ok (csv_rows headers 1 (tl lines) passwords).

(** The data rows of a text, and the password field each resolves to. *)
Definition data_rows (text : string) : list string := tl (csv_lines text).

Definition resolved_password (text line : string) : string :=
  ImportedPassword.password (resolve_row (csv_headers (csv_lines text)) line).

Definition newline : string := String (ascii_of_nat 10) EmptyString.

(** A file with the template's header and three data rows, the second
    without a password. *)
Definition sample_csv : string :=
  ("title,username,password,url,notes" ++ newline ++
   "Gmail,john@example.com,mypassword123,https://gmail.com,Work email" ++ newline ++
   "Forum,john,,https://forum.example.com,no password" ++ newline ++
   "Facebook,john@example.com,anotherpassword,https://facebook.com,Social media")%string.

(** ** The import normalizer: commit *)

Module ImportResult.
Record t : Type := mk {
  total : nat;
  successful : nat;
  failed : nat;
  errors : list string
}.
End ImportResult.

(** The object handed to [blink.db.passwords.create]. *)
Module NewPassword.
Record t : Type := mk {
  id : string;
  userId : string;
  title : string;
  username : string;
  email : string;
  password : string;
  encryptedPassword : string;
  websiteUrl : string;
  category : string;
  notes : string;
  isFavorite : bool;
  createdAt : string;
  updatedAt : string;
  lastUsed : option string
}.
End NewPassword.

Module Toast.
Record t : Type := mk {
  title : string;
  description : string;
  destructive : bool
}.
End Toast.

(** The component state that [handleImport] writes. *)
Module ImportState.
Record t : Type := mk {
  activeTab : string;
  importing : bool;
  progress : Q;
  importResult : option ImportResult.t;
  toasts : list Toast.t
}.
End ImportState.

Section Commit.

(** The external store: its state, and [create], which answers [None]
    when the promise resolves and [Some error] when it rejects, [error]
    being the text the rejection prints as.  [auth_me] is the outcome of
    [blink.auth.me()].  [fresh_id i] and [now_iso i] stand for the id and
    the clock reading built in iteration [i]. *)
Variable Store : Type.
Variable create : Store -> NewPassword.t -> Store * option string.
Variable auth_me : result string.
Variable fresh_id : nat -> string.
Variable now_iso : nat -> string.

Definition new_record (user : string) (i : nat) (password : ImportedPassword.t)
  : NewPassword.t :=
  NewPassword.mk
    (fresh_id i)
    user
    (ImportedPassword.title password)
    (js_or (ImportedPassword.username password) "")
    (js_or (ImportedPassword.email password) "")
    (ImportedPassword.password password)
    (ImportedPassword.password password)
    (js_or (ImportedPassword.websiteUrl password) "")
    (ImportedPassword.category password)
    (js_or (ImportedPassword.notes password) "")
    false
    (now_iso i)
    (now_iso i)
    None.

(** What the loop carries: the result under construction, the progress
    shown, the store, and the records submitted so far. *)
Record CommitState : Type := mkCommit {
  result_so_far : ImportResult.t;
  progress_shown : Q;
  store_now : Store;
  submitted : list NewPassword.t
}.

(** The loop [for (let i = 0; i < previewData.length; i++)], on the
    candidates from [i] on; [len] is [previewData.length]. *)
Fixpoint commit_loop (user : string) (len : nat) (i : nat)
         (rest : list ImportedPassword.t) (st : CommitState) : CommitState :=
  match rest with
  | [] => st
  | password :: rest' =>
      let '(ImportResult.mk total successful failed errors) :=
        result_so_far st in
      let record := new_record user i password in
      let '(store', outcome) := create (store_now st) record in
      let result' :=
        match outcome with
        | None => ImportResult.mk total (S successful) failed errors
        | Some error =>
            ImportResult.mk total successful (S failed)
              (errors ++ [("Failed to import " ++ String dquote
                            (ImportedPassword.title password)
                            ++ String dquote ": " ++ error)%string])
        end in
      commit_loop user len (S i) rest'
        (mkCommit result'
                  ((Q_of_nat (i + 1) / Q_of_nat len) * 100)%Q
                  store'
                  (submitted st ++ [record]))
  end.

Definition handleImport (previewData : list ImportedPassword.t)
           (ui : ImportState.t) (store : Store)
  : ImportState.t * Store * list NewPassword.t :=
  let '(ImportState.mk activeTab importing progress importResult toasts) := ui in
  if List.length previewData =? 0 then (ui, store, [])
  else
    (* setImporting(true); setProgress(0) *)
    match auth_me with
    | Throw _ =>
        (ImportState.mk activeTab false 0%Q importResult
           (toasts ++ [Toast.mk "Import Failed" "Failed to import passwords" true]),
         store, [])
    | Ok user =>
        let result :=
          ImportResult.mk (List.length previewData) 0 0 [] in
        let st :=
          commit_loop user (List.length previewData) 0 previewData
            (mkCommit result 0%Q store []) in
        let result := result_so_far st in
        (ImportState.mk "result" false (progress_shown st) (Some result)
           (toasts ++
            [Toast.mk "Import Complete"
               ("Successfully imported "
                ++ decimal (ImportResult.successful result) ++ " of "
                ++ decimal (ImportResult.total result) ++ " passwords")%string
               false]),
         store_now st, submitted st)
    end.

(** The answers of the store to a sequence of records submitted in
    order. *)
Fixpoint responses (store : Store) (records : list NewPassword.t)
  : list (option string) :=
  match records with
  | [] => []
  | record :: rest =>
      let '(store', outcome) := create store record in
      outcome :: responses store' rest
  end.

(** The records a candidate sequence turns into, the first at index [i]. *)
Fixpoint records_from (user : string) (i : nat)
         (candidates : list ImportedPassword.t) : list NewPassword.t :=
  match candidates with
  | [] => []
  | password :: rest => new_record user i password :: records_from user (S i) rest
  end.

Definition rejected (outcome : option string) : bool :=
  match outcome with Some _ => true | None => false end.

Definition failures (store : Store) (user : string)
           (candidates : list ImportedPassword.t) : nat :=
  List.length (filter rejected (responses store (records_from user 0 candidates))).

End Commit.

Arguments mkCommit {Store} _ _ _ _.
Arguments result_so_far {Store} _.
Arguments progress_shown {Store} _.
Arguments store_now {Store} _.
Arguments submitted {Store} _.
Arguments commit_loop {Store} create fresh_id now_iso user len i rest st.
Arguments handleImport {Store} create auth_me fresh_id now_iso previewData ui store.
Arguments responses {Store} create store records.
Arguments failures {Store} create fresh_id now_iso store user candidates.

(** A store that keeps the titles it accepted and rejects a title it
    already holds. *)
Definition unique_title_store (store : list string) (record : NewPassword.t)
  : list string * option string :=
  if existsb (String.eqb (NewPassword.title record)) store
  then (store, Some "Error: duplicate title")
  else (store ++ [NewPassword.title record], None).

Definition candidate (title secret : string) : ImportedPassword.t :=
  ImportedPassword.mk title None None secret None "Personal" None.

Definition idle : ImportState.t := ImportState.mk "preview" false 0%Q None [].

Definition sample_id (i : nat) : string := ("pwd_" ++ decimal i)%string.
Definition sample_clock (i : nat) : string := "2024-01-01T00:00:00.000Z".

(** Three candidates of which the second repeats the title of the first. *)
Definition three_candidates : list ImportedPassword.t :=
  [candidate "Gmail" "mypassword123"; candidate "Gmail" "anotherpassword";
   candidate "Bank" "Xy9!kLp2Qz"].

(* ------------------------------------------------------------------ *)
(** ** Further functions of the same files *)
(* ------------------------------------------------------------------ *)

(** *** [MasterPasswordSetup]: the submit gate *)

Definition passwordsMatch (password confirmPassword : string) : bool :=
  String.eqb password confirmPassword && (0 <? String.length password).

Definition canSubmit (password confirmPassword : string) : bool :=
  (8 <=? String.length password)
  && passwordsMatch password confirmPassword
  && (3 <=? PasswordStrength.score (analyzeStrength password))%Z.

(** The [met] flags of the six requirements shown to the user. *)
Definition requirements (password confirmPassword : string)
  : list (string * bool) :=
  [ ("At least 8 characters", 8 <=? String.length password);
    ("Contains uppercase letter", test re_upper password);
    ("Contains lowercase letter", test re_lower password);
    ("Contains number", test re_digit password);
    ("Contains special character", test re_non_alnum password);
    ("Passwords match", passwordsMatch password confirmPassword) ].

(** *** [PasswordHealth]: the other accessors and the score label *)

Definition getWeakPasswords (passwords : list Password.t) : list Password.t :=
  filter (fun password =>
            (StrengthBreakdown.score
               (calculatePasswordStrength (passwordValue password)) <? 60)%Z)
         passwords.

(** [getOldPasswords] reads the clock again; [sixMonthsAgo] is the cutoff
    it computes. *)
Definition getOldPasswords (Date_parse : string -> option Z) (sixMonthsAgo : Z)
           (passwords : list Password.t) : list Password.t :=
  filter (is_old Date_parse sixMonthsAgo) passwords.

Definition getScoreLabel (score : Q) : string :=
  if Qle_bool 80 score then "Excellent"
  else if Qle_bool 60 score then "Good"
  else if Qle_bool 40 score then "Fair"
  else "Poor".

(** The records of a list that carry the value [key], in list order. *)
Definition same_value (key : string) (passwords : list Password.t)
  : list Password.t :=
  filter (fun p => String.eqb (passwordValue p) key) passwords.

(** *** [ImportPasswords]: the line-oriented fallback parser *)

(** [line.split(/[\t,;]/)]: a split on every character of a class. *)
Fixpoint split_by (sep : ascii -> bool) (s : string) : list string :=
  match s with
  | EmptyString => [EmptyString]
  | String c rest =>
      if sep c then EmptyString :: split_by sep rest
      else match split_by sep rest with
           | [] => [String c EmptyString]
           | piece :: pieces => String c piece :: pieces
           end
  end.

Definition is_separator (c : ascii) : bool :=
  (code c =? 9) || Ascii.eqb c "," || Ascii.eqb c ";".

(** The body of [lines.forEach((line, index) => ...)] of [parseGeneric]. *)
Definition generic_line (index : nat) (line : string)
           (passwords : list ImportedPassword.t) : list ImportedPassword.t :=
  let parts := map trim (split_by is_separator line) in
  if 2 <=? List.length parts then
    passwords ++
    [ ImportedPassword.mk
        (js_or (nth_error parts 0)
               ("Imported Password " ++ decimal (index + 1))%string)
        (Some (js_or (nth_error parts 1) ""))
        None
        (js_or (nth_error parts 2) (nth 1 parts ""))
        (Some (js_or (nth_error parts 3) ""))
        "Personal"
        (Some (String.concat " " (skipn 4 parts))) ]
  else passwords.

Fixpoint generic_lines (index : nat) (lines : list string)
         (passwords : list ImportedPassword.t) : list ImportedPassword.t :=
  match lines with
  | [] => passwords
  | line :: rest => generic_lines (S index) rest (generic_line index line passwords)
  end.

Definition parseGeneric (text : string) : list ImportedPassword.t :=
  generic_lines 0 (csv_lines text) [].

(** A line holds a separator. *)
Definition has_separator (line : string) : bool :=
  existsb is_separator (chars line).

(** *** [ImportPasswords]: the JSON parser

    [JSON.parse] belongs to the engine: it is a parameter, and so is the
    type of the numbers it returns, of which the code only asks whether
    they are falsy (zero). *)

Section Json.

Variable Num : Type.
Variable num_is_zero : Num -> bool.

#[warnings="-register-all"]
Inductive JsonValue : Type :=
| JNull
| JBool (b : bool)
| JNum (n : Num)
| JStr (s : string)
| JArr (items : list JsonValue)
| JObj (properties : list (string * JsonValue)).

Variable JSON_parse : string -> result JsonValue.

(** Truthiness of a value that may be [undefined] ([None]). *)
Definition json_truthy (v : option JsonValue) : bool :=
  match v with
  | None | Some JNull => false
  | Some (JBool b) => b
  | Some (JNum n) => negb (num_is_zero n)
  | Some (JStr s) => truthy s
  | Some (JArr _) | Some (JObj _) => true
  end.

(** [a || b] *)
Definition any_or (a b : option JsonValue) : option JsonValue :=
  if json_truthy a then a else b.

Definition is_null (v : JsonValue) : bool :=
  match v with JNull => true | _ => false end.

(** [item.key] on a value that is not [null], for one of the keys the
    parser reads, none of which a prototype defines: an own property of an
    object, [undefined] on any other value. *)
Definition json_prop (item : JsonValue) (key : string) : option JsonValue :=
  match item with
  | JObj properties => own_get properties key
  | _ => None
  end.

(** What [parseJSON] builds for one element; the types of the interface
    are not checked at run time, so a field holds whatever the file
    holds. *)
Record ImportedItem : Type := mkItem {
  item_title : option JsonValue;
  item_username : option JsonValue;
  item_email : option JsonValue;
  item_password : option JsonValue;
  item_websiteUrl : option JsonValue;
  item_category : option JsonValue;
  item_notes : option JsonValue
}.

(** The callback of [data.map]; reading a property of [null] throws. *)
Definition json_item (index : nat) (item : JsonValue) : result ImportedItem :=
  if is_null item then Throw "TypeError: Cannot read properties of null"
  else
    let get := json_prop item in
    Ok (mkItem
          (any_or (get "title")
             (any_or (get "name")
                (Some (JStr ("Imported Password " ++ decimal (index + 1))%string))))
          (any_or (get "username") (any_or (get "user") (Some (JStr ""))))
          (any_or (get "email") (Some (JStr "")))
          (any_or (get "password") (Some (JStr "")))
          (any_or (get "websiteUrl")
             (any_or (get "url") (any_or (get "website") (Some (JStr "")))))
          (any_or (get "category") (Some (JStr "Personal")))
          (any_or (get "notes") (any_or (get "note") (Some (JStr ""))))).

(** [data.map((item, index) => ...)]: the first throwing element ends the
    map. *)
Fixpoint json_items (index : nat) (items : list JsonValue)
  : result (list ImportedItem) :=
  match items with
  | [] => Ok []
  | item :: rest =>
      match json_item index item with
      | Throw e => Throw e
      | Ok first =>
          match json_items (S index) rest with
          | Throw e => Throw e
          | Ok others => Ok (first :: others)
          end
      end
  end.

Definition parseJSON (text : string) : result (list ImportedItem) :=
  match JSON_parse text with
  | Throw e => Throw e
  | Ok (JArr items) => json_items 0 items
  | Ok _ => Throw "JSON must be an array of password objects"
  end.

End Json.

Arguments JNull {Num}.
Arguments JBool {Num} b.
Arguments JStr {Num} s.
Arguments JArr {Num} items.
Arguments JObj {Num} properties.
Arguments JNum {Num} n.
Arguments is_null {Num} v.

(** *** [SecureNotes]: the preview of a note *)

Definition truncateContent (content : string) (maxLength : Z) : string :=
  if (Z.of_nat (String.length content) <=? maxLength)%Z then content
  else (String.substring 0 (Z.to_nat maxLength) content ++ "...")%string.

(** *** Helpers of the statements about the commit *)

(** The error texts a run leaves: one per rejected record, in order. *)
Fixpoint failure_messages (candidates : list ImportedPassword.t)
         (outcomes : list (option string)) : list string :=
  match candidates, outcomes with
  | password :: rest, Some error :: outcomes' =>
      ("Failed to import " ++ String dquote (ImportedPassword.title password)
        ++ String dquote ": " ++ error)%string
      :: failure_messages rest outcomes'
  | _ :: rest, None :: outcomes' => failure_messages rest outcomes'
  | _, _ => []
  end.

(** The store after a sequence of records was submitted in order. *)
Fixpoint store_after {Store : Type}
         (create : Store -> NewPassword.t -> Store * option string)
         (store : Store) (records : list NewPassword.t) : Store :=
  match records with
  | [] => store
  | record :: rest => store_after create (fst (create store record)) rest
  end.

(** Sample data of the witnesses. *)
Definition all_classes_request : GeneratorOptions.t :=
  GeneratorOptions.mk 16 true true true true false.

Definition fresh_record (id secret : string) : Password.t :=
  Password.mk id id (Some secret) secret "Personal" "2030-01-01T00:00:00.000Z".

Definition sample_vault : list Password.t :=
  [fresh_record "1" "Tr0ub4dor&9!x"; fresh_record "2" "c0rrect-Horse-7"].

Definition no_password_csv : string :=
  ("title,username,url" ++ newline ++
   "Gmail,john@example.com,https://gmail.com" ++ newline ++
   "Bank,john,https://bank.example.com")%string.

(** A JSON engine for the witnesses: numbers are integers, and every text
    parses to the array of one object of the export format. *)
Definition sample_json : JsonValue Z :=
  JArr [JObj [("name", JStr "Gmail"); ("password", JStr "x")]].

Definition sample_JSON_parse (text : string) : result (JsonValue Z) :=
  Ok sample_json.

Definition generic_sample : string :=
  ("Gmail;john@example.com;mypassword123" ++ newline ++
   "just a remark" ++ newline ++
   "Bank,john")%string.

(* ================================================================== *)
(** * Part II: properties *)
(* ================================================================== *)

(** ** Strings *)

Lemma length_chars (s : string) : List.length (chars s) = String.length s.
Proof. induction s; simpl; congruence. Qed.

Lemma length_join (l : list ascii) : String.length (join l) = List.length l.
Proof. induction l; simpl; congruence. Qed.

Lemma chars_join (l : list ascii) : chars (join l) = l.
Proof. apply list_ascii_of_string_of_list_ascii. Qed.

Lemma chars_append (s t : string) :
  chars (s ++ t)%string = chars s ++ chars t.
Proof. induction s; simpl; congruence. Qed.

Lemma get_nth_error (s : string) (i : nat) :
  String.get i s = nth_error (chars s) i.
Proof.
  revert i; induction s as [|c s IH]; intros [|i]; simpl; auto.
Qed.

Lemma charAt_in_range (s : string) (i : nat) :
  i < String.length s ->
  exists c, charAt s i = String c EmptyString /\ In c (chars s).
Proof.
  intros Hi. unfold charAt. rewrite get_nth_error.
  rewrite <- length_chars in Hi.
  destruct (nth_error (chars s) i) as [c|] eqn:E.
  - exists c; split; auto. eapply nth_error_In; eauto.
  - apply nth_error_None in E. lia.
Qed.

(** ** The generator *)

Lemma withoutSimilar_chars (pool : string) (c : ascii) :
  In c (chars (withoutSimilar pool)) ->
  In c (chars pool) /\ includes SIMILAR c = false.
Proof.
  unfold withoutSimilar. rewrite chars_join, filter_In.
  intros [Hin Hneg]. split; auto. now apply negb_true_iff.
Qed.

Lemma pool_of_chars (e : bool) (pool : string) (c : ascii) :
  In c (chars (pool_of e pool)) -> In c (chars pool).
Proof.
  destruct e; simpl; auto. intros H. now apply withoutSimilar_chars in H.
Qed.

Lemma pool_of_similar (pool : string) (c : ascii) :
  In c (chars (pool_of true pool)) -> includes SIMILAR c = false.
Proof. intros H. now apply withoutSimilar_chars in H. Qed.

Lemma sort_insert_perm cmp x l k :
  Permutation (x :: l) (fst (sort_insert cmp x l k)).
Proof.
  revert k; induction l as [|y l IH]; intros k; simpl.
  - apply Permutation_refl.
  - unfold bind. destruct (cmp x y k) as [c k1].
    destruct (c <? 0)%Z; simpl.
    + apply Permutation_refl.
    + specialize (IH k1). destruct (sort_insert cmp x l k1) as [r k2]; simpl in *.
      eapply perm_trans; [apply perm_swap|]. now apply perm_skip.
Qed.

Lemma insertion_sort_perm cmp l k :
  Permutation l (fst (insertion_sort cmp l k)).
Proof.
  revert k; induction l as [|x l IH]; intros k; simpl.
  - apply Permutation_refl.
  - unfold bind. specialize (IH k).
    destruct (insertion_sort cmp l k) as [s k1]; simpl in *.
    eapply perm_trans; [apply perm_skip, IH|]. apply sort_insert_perm.
Qed.

Section GeneratorProperties.

Variable source : nat -> N.
Variable Array_sort :
  (ascii -> ascii -> Rand Z) -> list ascii -> Rand (list ascii).
Hypothesis Array_sort_perm :
  forall cmp l k, Permutation l (fst (Array_sort cmp l k)).

Lemma random_below_lt (n k : nat) :
  0 < n -> fst (random_below source n k) < n.
Proof.
  intros Hn. unfold random_below, bind, Math_random, ret; simpl.
  assert (Hu : (source k mod two53 < two53)%N)
    by (apply N.mod_lt; discriminate).
  assert (H : ((source k mod two53) * N.of_nat n / two53 < N.of_nat n)%N).
  { apply N.Div0.div_lt_upper_bound. apply N.mul_lt_mono_pos_r; lia. }
  lia.
Qed.

Lemma random_below_count (n k : nat) : snd (random_below source n k) = S k.
Proof. reflexivity. Qed.

Lemma getRandomChar_spec (pool : string) (e : bool) (k : nat) :
  0 < String.length (pool_of e pool) ->
  exists c, getRandomChar source pool e k = (String c EmptyString, S k)
            /\ In c (chars (pool_of e pool)).
Proof.
  intros Hlen. unfold getRandomChar. fold (pool_of e pool).
  unfold bind.
  pose proof (random_below_lt (String.length (pool_of e pool)) k Hlen) as Hlt.
  pose proof (random_below_count (String.length (pool_of e pool)) k) as Hk.
  destruct (random_below source (String.length (pool_of e pool)) k) as [i k1].
  simpl in *. subst k1.
  destruct (charAt_in_range _ _ Hlt) as (c & Hc & Hin).
  exists c. unfold ret. now rewrite Hc.
Qed.

Lemma fill_spec (n : nat) (charset password : string) (k : nat) :
  0 < String.length charset ->
  exists t, fst (fill source n charset password k)
            = (password ++ join t)%string
            /\ List.length t = n
            /\ Forall (fun c => In c (chars charset)) t.
Proof.
  intros Hlen. revert password k.
  induction n as [|n IH]; intros password k; simpl.
  - exists []. simpl. split; [|split; auto].
    clear. induction password; simpl; congruence.
  - unfold bind.
    pose proof (random_below_lt (String.length charset) k Hlen) as Hlt.
    destruct (random_below source (String.length charset) k) as [i k1].
    simpl in Hlt.
    destruct (charAt_in_range _ _ Hlt) as (c & Hc & Hin). rewrite Hc.
    destruct (IH (password ++ String c EmptyString)%string k1)
      as (t & Ht & Hn & Hall).
    exists (c :: t). rewrite Ht. split; [|split].
    + simpl. clear. induction password; simpl; congruence.
    + simpl; congruence.
    + constructor; auto.
Qed.

(** The last two steps of [generate]: fill up, then shuffle. *)
Lemma fill_shuffle_spec (n : nat) (charset password : string) (k : nat) :
  0 < String.length charset ->
  exists t shuffled k',
    (password <- fill source n charset password ;;
     shuffled <- Array_sort (fun _ _ => random_sign source) (chars password) ;;
     ret (Ok (join shuffled))) k = (Ok (join shuffled), k')
    /\ Permutation (chars password ++ t) shuffled
    /\ List.length t = n
    /\ Forall (fun c => In c (chars charset)) t.
Proof.
  intros Hlen.
  destruct (fill_spec n charset password k Hlen) as (t & Ht & Hn & Hall).
  unfold bind.
  destruct (fill source n charset password k) as [pw k1]. simpl in Ht. subst pw.
  pose proof (Array_sort_perm (fun _ _ => random_sign source)
                (chars (password ++ join t)) k1) as Hperm.
  destruct (Array_sort _ (chars (password ++ join t)) k1) as [sh k2].
  simpl in Hperm. rewrite chars_append, chars_join in Hperm.
  exists t, sh, k2. unfold ret. auto.
Qed.

Ltac step_pick :=
  match goal with
  | |- context [getRandomChar source ?p ?e ?k] =>
      let c := fresh "c" in
      let E := fresh "E" in
      let Hin := fresh "Hin" in
      destruct (getRandomChar_spec p e k) as (c & E & Hin);
      [ apply Nat.ltb_lt; reflexivity
      | rewrite E; cbv beta iota zeta delta [bind ret] ]
  end.

(** What [generate] returns on a request with a class enabled: one pick
    per enabled class, [max 0 (length - picks)] characters of the working
    alphabet, in some order. *)
Lemma generate_spec (o : GeneratorOptions.t) (k : nat) :
  enabled_pools o <> [] ->
  exists picks t shuffled k',
    generate source Array_sort o k = (Ok (join shuffled), k')
    /\ Permutation (picks ++ t) shuffled
    /\ Forall2 (fun c pool =>
                  In c (chars (pool_of (GeneratorOptions.excludeSimilar o) pool)))
               picks (enabled_pools o)
    /\ List.length t
       = Z.to_nat (GeneratorOptions.length o - Z.of_nat (List.length picks))
    /\ Forall (fun c => In c (chars (working_charset o))) t.
Proof.
  destruct o as [len u l n s e]. unfold enabled_pools, working_charset. simpl.
  intros Hne.
  destruct u, l, n, s; try (exfalso; apply Hne; reflexivity); clear Hne;
    destruct e;
    unfold generate; cbn [GeneratorOptions.includeUppercase
      GeneratorOptions.includeLowercase GeneratorOptions.includeNumbers
      GeneratorOptions.includeSymbols GeneratorOptions.excludeSimilar
      GeneratorOptions.length];
    cbv beta iota zeta delta [bind ret];
    match goal with
    | |- context [?m =? 0] =>
        replace (m =? 0) with false by (vm_compute; reflexivity)
    end;
    cbv beta iota;
    repeat step_pick;
    match goal with
    | |- context [fill source ?n ?cs ?pw ?k] =>
        destruct (fill_shuffle_spec n cs pw k) as (t & sh & k' & Eq & Hp & Hn & Hall);
        [ apply Nat.ltb_lt; reflexivity | ]
    end;
    cbv beta iota zeta delta [bind ret] in Eq;
    cbn [chars list_ascii_of_string String.append String.length] in Hp, Hn;
    match type of Hp with
    | Permutation (?picks ++ _) _ => exists picks, t, sh, k'
    end;
    (split; [exact Eq|]); (split; [exact Hp|]);
    (split; [repeat first [apply Forall2_nil | apply Forall2_cons; [assumption|]]|]);
    (split; [exact Hn | exact Hall]).
Qed.

End GeneratorProperties.

Lemma includes_false (s : string) (c : ascii) :
  includes s c = false -> ~ In c (chars s).
Proof.
  unfold includes. intros H Hin.
  assert (E : existsb (Ascii.eqb c) (chars s) = true).
  { apply existsb_exists. exists c. split; auto. apply Ascii.eqb_refl. }
  congruence.
Qed.

Lemma Forall2_each {A B} (R : A -> B -> Prop) (l : list A) (l' : list B) :
  Forall2 R l l' -> Forall (fun b => exists a, In a l /\ R a b) l'.
Proof.
  induction 1 as [|a b l l' Hab _ IH]; constructor.
  - exists a; simpl; auto.
  - eapply Forall_impl; [|exact IH].
    intros b' (a' & Hin & HR). exists a'; simpl; auto.
Qed.

Section GeneratorTheorems.

Variable source : nat -> N.
Variable Array_sort :
  (ascii -> ascii -> Rand Z) -> list ascii -> Rand (list ascii).
Hypothesis Array_sort_perm :
  forall cmp l k, Permutation l (fst (Array_sort cmp l k)).

(** C1, as amended.  On every valid request [generate] returns a string
    that holds at least one character of every enabled class and whose
    length is the larger of the requested length and the number of
    enabled classes; it is the requested length whenever that is at
    least the number of enabled classes. *)
Theorem generate_length_and_classes (o : GeneratorOptions.t) (k : nat) :
  valid_request o ->
  exists s k',
    generate source Array_sort o k = (Ok s, k')
    /\ Z.of_nat (String.length s)
       = Z.max (GeneratorOptions.length o)
               (Z.of_nat (List.length (enabled_pools o)))
    /\ Forall (fun pool => exists c, In c (chars s) /\ In c (chars pool))
              (enabled_pools o).
Proof.
  intros [_ Hne].
  destruct (generate_spec source Array_sort Array_sort_perm o k Hne)
    as (picks & t & sh & k' & Eq & Hp & Hpicks & Hn & _).
  exists (join sh), k'. split; [exact Eq|]. split.
  - rewrite length_join, <- (Permutation_length Hp), length_app, Hn.
    rewrite (Forall2_length Hpicks). lia.
  - rewrite chars_join.
    eapply Forall_impl; [|exact (Forall2_each _ _ _ Hpicks)].
    intros pool (c & Hin & Hc). exists c. split.
    + eapply Permutation_in; [exact Hp|]. apply in_or_app; auto.
    + eapply pool_of_chars; eauto.
Qed.

(** C8.  On every valid request with [excludeSimilar] set, [generate]
    returns a string that holds none of the characters i, l, 1, L, o, 0
    and O. *)
Theorem generate_excludes_similar (o : GeneratorOptions.t) (k : nat) :
  valid_request o ->
  GeneratorOptions.excludeSimilar o = true ->
  exists s k',
    generate source Array_sort o k = (Ok s, k')
    /\ Forall (fun c => ~ In c ["i"; "l"; "1"; "L"; "o"; "0"; "O"]%char)
              (chars s).
Proof.
  intros [_ Hne] He.
  destruct (generate_spec source Array_sort Array_sort_perm o k Hne)
    as (picks & t & sh & k' & Eq & Hp & Hpicks & _ & Hall).
  exists (join sh), k'. split; [exact Eq|].
  rewrite chars_join. apply Forall_forall. intros c Hc.
  change ["i"; "l"; "1"; "L"; "o"; "0"; "O"]%char with (chars SIMILAR).
  apply includes_false.
  apply Permutation_sym in Hp.
  apply (Permutation_in _ Hp), in_app_or in Hc. destruct Hc as [Hc|Hc].
  - rewrite He in Hpicks. clear - Hpicks Hc.
    induction Hpicks as [|a b l l' Hab _ IH]; [contradiction|].
    destruct Hc as [<-|Hc]; auto. eapply pool_of_similar; eauto.
  - rewrite Forall_forall in Hall. specialize (Hall c Hc).
    unfold working_charset in Hall. rewrite He in Hall.
    eapply pool_of_similar; eauto.
Qed.

End GeneratorTheorems.

Lemma generate_length_and_classes_witness :
  valid_request short_request /\
  exists s k',
    generate zero_source insertion_sort short_request 0 = (Ok s, k')
    /\ Z.of_nat (String.length s)
       = Z.max (GeneratorOptions.length short_request)
               (Z.of_nat (List.length (enabled_pools short_request)))
    /\ Forall (fun pool => exists c, In c (chars s) /\ In c (chars pool))
              (enabled_pools short_request).
Proof.
  assert (V : valid_request short_request).
  { split; [simpl; lia | discriminate]. }
  split; [exact V|].
  exact (generate_length_and_classes zero_source insertion_sort
           insertion_sort_perm short_request 0 V).
Defined.

(** C1 as the specification states it fails on [short_request]: one
    character is requested, four come back. *)
Lemma generate_length_counterexample :
  valid_request short_request /\
  fst (generate zero_source insertion_sort short_request 0) = Ok "Aa0!" /\
  Z.of_nat (String.length "Aa0!") <> GeneratorOptions.length short_request.
Proof.
  split; [split; [simpl; lia | discriminate]|].
  split; [vm_compute; reflexivity | simpl; lia].
Qed.

Lemma generate_excludes_similar_witness :
  exists s k',
    generate zero_source insertion_sort unambiguous_request 0 = (Ok s, k')
    /\ Forall (fun c => ~ In c ["i"; "l"; "1"; "L"; "o"; "0"; "O"]%char)
              (chars s).
Proof.
  apply (generate_excludes_similar zero_source insertion_sort
           insertion_sort_perm unambiguous_request 0).
  - split; [simpl; lia | discriminate].
  - reflexivity.
Defined.

(** ** The strength scorers *)

Ltac split_pairs :=
  repeat match goal with
         | |- context [match ?x with pair _ _ => _ end] => destruct x
         end.

(** The label is read from the table at the clamped score. *)
Lemma analyzeStrength_label (password : string) :
  PasswordStrength.label (analyzeStrength password)
  = js_or (option_map StrengthLevel.label
             (nth_error strengthLevels
                (Z.to_nat (PasswordStrength.score (analyzeStrength password)))))
          "Very Weak".
Proof. unfold analyzeStrength. split_pairs. reflexivity. Qed.

Lemma analyzeStrength_score_range (password : string) :
  (0 <= PasswordStrength.score (analyzeStrength password) <= 5)%Z.
Proof. unfold analyzeStrength. split_pairs. simpl. lia. Qed.

(** C9.  Whenever the qualitative score is the maximum 5, the label is
    'Very Weak': the table has entries for 0 to 4 only, and the lookup
    past its end takes the default. *)
Theorem top_score_labelled_very_weak (password : string) :
  PasswordStrength.score (analyzeStrength password) = 5%Z ->
  PasswordStrength.label (analyzeStrength password) = "Very Weak".
Proof.
  intros H. rewrite analyzeStrength_label, H. reflexivity.
Qed.

Lemma top_score_labelled_very_weak_witness :
  PasswordStrength.score (analyzeStrength "Tr0ub4dor&9!") = 5%Z /\
  PasswordStrength.label (analyzeStrength "Tr0ub4dor&9!") = "Very Weak".
Proof.
  split; [reflexivity|].
  apply (top_score_labelled_very_weak "Tr0ub4dor&9!"). reflexivity.
Defined.

(** The fixtures of the specification on both scales. *)
Example fixture_password_scores :
  PasswordStrength.score (analyzeStrength "password") = 0%Z /\
  StrengthBreakdown.score (calculatePasswordStrength "password") = 10%Z.
Proof. split; reflexivity. Qed.

Example fixture_troubador_score :
  StrengthBreakdown.score (calculatePasswordStrength "Tr0ub4dor&9!") = 100%Z.
Proof. reflexivity. Qed.

(** The source's repeated-character pattern needs a backslash in the
    input: without one it never matches. *)
Lemma match_here_repeated (s : list ascii) :
  match_here re_repeated s = true -> In "\"%char s.
Proof.
  unfold re_repeated.
  destruct s as [|a [|b s']]; cbn [match_here]; intros H;
    try (rewrite ?andb_false_r in H; discriminate).
  apply andb_true_iff in H as [_ H]. apply andb_true_iff in H as [H _].
  apply Ascii.eqb_eq in H. subst b. right. left. reflexivity.
Qed.

Lemma search_repeated_needs_backslash (s : list ascii) :
  ~ In "\"%char s -> search re_repeated s = false.
Proof.
  induction s as [|a s IH]; intros Hno; [reflexivity|].
  cbn [search].
  destruct (match_here re_repeated (a :: s)) eqn:E.
  - apply match_here_repeated in E. contradiction.
  - simpl. apply IH. intros H. apply Hno. right. exact H.
Qed.

(** C4, on the code.  The string of eight [a] has a run of three equal
    characters, yet the source's pattern does not match it, and both
    scorers give it the scores of a string of the same length and classes
    without any repetition: 2 of 5 and 30 of 100, nothing subtracted. *)
Theorem repeated_penalty_not_applied :
  has_run3 (chars "aaaaaaaa") = true /\
  has_run3 (chars "bdfhjlnp") = false /\
  test re_repeated "aaaaaaaa" = false /\
  PasswordStrength.score (analyzeStrength "aaaaaaaa") = 2%Z /\
  PasswordStrength.score (analyzeStrength "bdfhjlnp") = 2%Z /\
  StrengthBreakdown.score (calculatePasswordStrength "aaaaaaaa") = 30%Z /\
  StrengthBreakdown.score (calculatePasswordStrength "bdfhjlnp") = 30%Z.
Proof. repeat split; vm_compute; reflexivity. Qed.

(** C5, as amended.  With the class-presence flags and the outcomes of the
    two penalty tests held fixed, the quantitative score does not decrease
    when the string gets longer. *)
Theorem score_monotone_in_length (s1 s2 : string) :
  class_flags (calculatePasswordStrength s1)
  = class_flags (calculatePasswordStrength s2) ->
  test re_repeated s1 = test re_repeated s2 ->
  test_common s1 = test_common s2 ->
  String.length s1 <= String.length s2 ->
  (StrengthBreakdown.score (calculatePasswordStrength s1)
   <= StrengthBreakdown.score (calculatePasswordStrength s2))%Z.
Proof.
  unfold class_flags, calculatePasswordStrength. cbn [StrengthBreakdown.score
    StrengthBreakdown.hasUppercase StrengthBreakdown.hasLowercase
    StrengthBreakdown.hasNumbers StrengthBreakdown.hasSymbols].
  intros Hf Hr Hc Hlen. injection Hf as Hu Hl Hn Hs.
  rewrite Hu, Hl, Hn, Hs, Hr, Hc.
  match goal with
  | |- context [if 16 <=? String.length s1 then ?a else ?b] =>
      set (L1 := if 16 <=? String.length s1 then a else b)
  end.
  match goal with
  | |- context [if 16 <=? String.length s2 then ?a else ?b] =>
      set (L2 := if 16 <=? String.length s2 then a else b)
  end.
  assert (HL : (L1 <= L2)%Z).
  { subst L1 L2.
    repeat match goal with
           | |- context [?a <=? ?b] => destruct (Nat.leb_spec a b)
           end; lia. }
  clearbody L1 L2.
  destruct (test re_upper s2), (test re_lower s2), (test re_digit s2),
    (test re_non_alnum s2), (test re_repeated s2), (test_common s2);
    cbn [filter List.length Nat.leb Nat.eqb]; lia.
Qed.

Lemma score_monotone_in_length_witness :
  (StrengthBreakdown.score (calculatePasswordStrength "aaaaaa")
   <= StrengthBreakdown.score (calculatePasswordStrength "aaaaaaaaaaaaaaaa"))%Z.
Proof.
  apply (score_monotone_in_length "aaaaaa" "aaaaaaaaaaaaaaaa").
  - reflexivity.
  - reflexivity.
  - reflexivity.
  - simpl. lia.
Defined.

(** C5 as the specification states it fails: both strings hold lowercase
    letters only and the second is longer, yet it scores 5 against 25,
    because it holds the common pattern [abc]. *)
Lemma score_monotone_counterexample :
  class_flags (calculatePasswordStrength "aaaaaa")
  = class_flags (calculatePasswordStrength "aaaabcd") /\
  String.length "aaaaaa" < String.length "aaaabcd" /\
  StrengthBreakdown.score (calculatePasswordStrength "aaaaaa") = 25%Z /\
  StrengthBreakdown.score (calculatePasswordStrength "aaaabcd") = 5%Z /\
  ~ (StrengthBreakdown.score (calculatePasswordStrength "aaaaaa")
     <= StrengthBreakdown.score (calculatePasswordStrength "aaaabcd"))%Z.
Proof.
  split; [reflexivity|]. split; [simpl; lia|].
  split; [reflexivity|]. split; [reflexivity|].
  vm_compute. intros H. apply H. reflexivity.
Qed.

(** ** The vault health analyzer *)

Lemma existsb_eqb_In (v : string) (l : list string) :
  existsb (String.eqb v) l = true <-> In v l.
Proof.
  rewrite existsb_exists. split.
  - intros (x & Hin & E). apply String.eqb_eq in E. now subst.
  - intros Hin. exists v. split; auto. apply String.eqb_refl.
Qed.

Lemma existsb_eqb_ext (v : string) (l l' : list string) :
  (forall u, In u l <-> In u l') ->
  existsb (String.eqb v) l = existsb (String.eqb v) l'.
Proof.
  intros H.
  destruct (existsb (String.eqb v) l) eqn:E, (existsb (String.eqb v) l') eqn:E';
    auto.
  - apply existsb_eqb_In, H, existsb_eqb_In in E. congruence.
  - apply existsb_eqb_In, H, existsb_eqb_In in E'. congruence.
Qed.

Section HealthProperties.

Variable Date_parse : string -> option Z.
Variable sixMonthsAgo : Z.

(** The loop invariant of [passwordList.forEach]: each counter is the
    count the specification names, and [passwordValues] holds exactly
    the values seen so far. *)
Lemma forEach_counts (total : nat) (score : Q) (l : list Password.t) :
  exists passwordValues,
    fold_left (analyze_record Date_parse sixMonthsAgo) l
      (HealthStats.mk total 0 0 0 0 score, [])
    = (HealthStats.mk total
         (spec_weakCount l) (spec_duplicateCount l)
         (spec_staleCount Date_parse sixMonthsAgo l) (spec_strongCount l)
         score,
       passwordValues)
    /\ (forall v, In v passwordValues <-> In v (map passwordValue l)).
Proof.
  induction l as [|x l IH] using rev_ind.
  - exists []. split; [reflexivity|]. intros v; reflexivity.
  - destruct IH as (pv & Efold & Hpv).
    rewrite fold_left_app, Efold. cbn [fold_left]. unfold analyze_record.
    unfold spec_weakCount, spec_strongCount, spec_staleCount,
      spec_duplicateCount.
    rewrite !filter_app, !length_app, map_app, rev_app_distr.
    cbn [filter map rev app earlier_count].
    rewrite (existsb_eqb_ext (passwordValue x) (rev (map passwordValue l)) pv)
      by (intros u; rewrite <- in_rev; symmetry; apply Hpv).
    set (sc := StrengthBreakdown.score
                 (calculatePasswordStrength (passwordValue x))).
    destruct (existsb (String.eqb (passwordValue x)) pv) eqn:Edup.
    + exists pv. split.
      * destruct (Z.ltb_spec sc 60), (Z.leb_spec 80 sc),
          (is_old Date_parse sixMonthsAgo x);
          cbn [List.length]; f_equal; f_equal; lia.
      * intros v. rewrite in_app_iff, <- Hpv. cbn [In].
        apply existsb_eqb_In in Edup. split; [tauto|].
        intros [H|[<-|[]]]; auto.
    + exists (pv ++ [passwordValue x]). split.
      * destruct (Z.ltb_spec sc 60), (Z.leb_spec 80 sc),
          (is_old Date_parse sixMonthsAgo x);
          cbn [List.length]; f_equal; f_equal; lia.
      * intros v. rewrite !in_app_iff, <- Hpv. reflexivity.
Qed.

(** C3.  The composite score is the clamped weighted sum of the four
    ratios over the record count, and 0 for the empty vault; the ratios
    count the weak, duplicate, stale and strong records. *)
Theorem composite_score_formula (records : list Password.t) :
  (HealthStats.score (analyzePasswordHealth Date_parse sixMonthsAgo records)
   == spec_compositeScore Date_parse sixMonthsAgo records)%Q.
Proof.
  unfold analyzePasswordHealth, spec_compositeScore, spec_total.
  destruct (forEach_counts (List.length records) 0%Q records)
    as (pv & Efold & _).
  rewrite Efold. cbn [HealthStats.score].
  destruct (List.length records) as [|n] eqn:En.
  - reflexivity.
  - cbn [Nat.ltb Nat.leb Nat.eqb]. unfold clamp, ratio, spec_total.
    rewrite En.
    apply Q.max_compat; [reflexivity|].
    apply Q.min_compat; [reflexivity|].
    ring.
Qed.

(** C2, on the code.  On three records whose values are "abc123",
    "abc123" and "Xy9!kLp2Qz" the duplicate accessor returns the two
    "abc123" records in their original order, as the claim says, but the
    analyzer's counter, which the Duplicate tab shows as the size of that
    very list, is 1 where the claim requires 2: the loop counts a record
    only when its value appeared earlier and so leaves out the first
    member of each group. *)
Theorem duplicate_fixture (r1 r2 r3 : Password.t) :
  passwordValue r1 = "abc123" ->
  passwordValue r2 = "abc123" ->
  passwordValue r3 = "Xy9!kLp2Qz" ->
  HealthStats.duplicate
    (analyzePasswordHealth Date_parse sixMonthsAgo [r1; r2; r3]) = 1
  /\ getDuplicatePasswords [r1; r2; r3] = Ok [r1; r2].
Proof.
  intros H1 H2 H3. split.
  - unfold analyzePasswordHealth.
    destruct (forEach_counts 3 0%Q [r1; r2; r3]) as (pv & Efold & _).
    cbn [List.length]. rewrite Efold. cbn [HealthStats.duplicate].
    unfold spec_duplicateCount. cbn [map rev app]. rewrite H1, H2, H3.
    reflexivity.
  - unfold getDuplicatePasswords. cbn [fold_left].
    unfold group_record. rewrite H1, H2, H3. reflexivity.
Qed.

End HealthProperties.

(** [Object.values] lists array-index keys first: with the values "b",
    "7", "b", "7" the group of "7" comes before the group of "b". *)
Example duplicate_groups_index_keys_first :
  getDuplicatePasswords
    [fixture_record "1" "b"; fixture_record "2" "7";
     fixture_record "3" "b"; fixture_record "4" "7"]
  = Ok [fixture_record "2" "7"; fixture_record "4" "7";
        fixture_record "1" "b"; fixture_record "3" "b"].
Proof. reflexivity. Qed.

(** A value that names a property of [Object.prototype] makes the
    accessor throw. *)
Example duplicate_groups_inherited_key :
  getDuplicatePasswords [fixture_record "1" "constructor"]
  = Throw "passwordGroups[passwordValue].push is not a function".
Proof. reflexivity. Qed.

Lemma duplicate_fixture_witness :
  HealthStats.duplicate
    (analyzePasswordHealth (fun _ => None) 0
       [fixture_record "1" "abc123"; fixture_record "2" "abc123";
        fixture_record "3" "Xy9!kLp2Qz"]) = 1
  /\ getDuplicatePasswords
       [fixture_record "1" "abc123"; fixture_record "2" "abc123";
        fixture_record "3" "Xy9!kLp2Qz"]
     = Ok [fixture_record "1" "abc123"; fixture_record "2" "abc123"].
Proof.
  apply (duplicate_fixture (fun _ => None) 0%Z
           (fixture_record "1" "abc123") (fixture_record "2" "abc123")
           (fixture_record "3" "Xy9!kLp2Qz")); reflexivity.
Defined.

(** On the fixture the counter is not the 2 that the accessor's list
    has and that the claim requires. *)
Lemma duplicate_count_counterexample :
  HealthStats.duplicate
    (analyzePasswordHealth (fun _ => None) 0
       [fixture_record "1" "abc123"; fixture_record "2" "abc123";
        fixture_record "3" "Xy9!kLp2Qz"]) <> 2.
Proof. vm_compute. discriminate. Qed.

(** ** The import normalizer: CSV *)

Lemma with_title_fallback_password (i : nat) (p : ImportedPassword.t) :
  ImportedPassword.password (with_title_fallback i p)
  = ImportedPassword.password p.
Proof.
  unfold with_title_fallback. destruct p as [t u e pw w c n]; simpl.
  destruct (truthy t); reflexivity.
Qed.

(** What the row loop appends: the passwords of the rows it keeps are the
    non-empty resolved passwords, in row order. *)
Lemma csv_rows_passwords (headers : list string) (rows : list string) :
  forall i passwords,
    map ImportedPassword.password (csv_rows headers i rows passwords)
    = map ImportedPassword.password passwords
      ++ filter truthy
           (map (fun line => ImportedPassword.password (resolve_row headers line))
                rows).
Proof.
  induction rows as [|line rows IH]; intros i passwords; cbn [csv_rows map filter].
  - now rewrite app_nil_r.
  - rewrite IH, with_title_fallback_password.
    destruct (truthy (ImportedPassword.password (resolve_row headers line))).
    + rewrite map_app. cbn [map].
      rewrite ?with_title_fallback_password, <- app_assoc. reflexivity.
    + reflexivity.
Qed.

Lemma filter_truthy_length (l : list string) :
  List.length (filter truthy l)
  = List.length l - List.length (filter (fun s => String.eqb s "") l).
Proof.
  pose proof (filter_length (fun s => String.eqb s "") l) as H.
  cbv beta in H.
  assert (E : filter truthy l = filter (fun s => negb (String.eqb s "")) l)
    by reflexivity.
  rewrite E. lia.
Qed.

Lemma filter_map_length {A B} (p : B -> bool) (f : A -> B) (l : list A) :
  List.length (filter p (map f l))
  = List.length (filter (fun a => p (f a)) l).
Proof.
  induction l as [|a l IH]; [reflexivity|].
  cbn [map filter]. destruct (p (f a)); cbn [List.length]; now rewrite IH.
Qed.

(** C6.  [parseCSV] raises an error only for a text with fewer than two
    non-blank lines.  Otherwise it keeps, in row order, exactly the data
    rows whose resolved password is not empty: the number of candidates is
    the number of data rows minus the number of rows with an empty
    resolved password. *)
Theorem parseCSV_drops_empty_passwords (text : string) :
  match parseCSV text with
  | Ok parsed =>
      2 <= List.length (csv_lines text)
      /\ List.length parsed
         = List.length (data_rows text)
           - List.length
               (filter (fun line => String.eqb (resolved_password text line) "")
                       (data_rows text))
      /\ map ImportedPassword.password parsed
         = filter truthy (map (resolved_password text) (data_rows text))
  | Throw _ => List.length (csv_lines text) < 2
  end.
Proof.
  unfold parseCSV.
  destruct (Nat.ltb_spec (List.length (csv_lines text)) 2) as [Hlt|Hge];
    [exact Hlt|].
  split; [exact Hge|].
  pose proof (csv_rows_passwords (csv_headers (csv_lines text))
                (tl (csv_lines text)) 1 []) as Hpw.
  cbn [map app] in Hpw. fold (data_rows text) in Hpw |- *.
  split; [|exact Hpw].
  rewrite <- (length_map ImportedPassword.password), Hpw.
  rewrite filter_truthy_length, length_map, filter_map_length.
  reflexivity.
Qed.

(** The sample file: three data rows, one without a password, two
    candidates. *)
Example parseCSV_sample :
  option_map (map ImportedPassword.title)
    (match parseCSV sample_csv with Ok l => Some l | Throw _ => None end)
  = Some ["Gmail"; "Facebook"].
Proof. vm_compute. reflexivity. Qed.

(** ** The import normalizer: commit *)

Section CommitProperties.

Variable Store : Type.
Variable create : Store -> NewPassword.t -> Store * option string.
Variable fresh_id : nat -> string.
Variable now_iso : nat -> string.

(** The loop invariant of the commit: the counters move with the answers
    of the store, one error text per rejection, and every candidate is
    submitted, in order. *)
Lemma commit_loop_spec (user : string) (len : nat)
      (rest : list ImportedPassword.t) :
  forall i st,
    let outs := responses create (store_now st)
                  (records_from fresh_id now_iso user i rest) in
    let st' := commit_loop create fresh_id now_iso user len i rest st in
    ImportResult.total (result_so_far st')
    = ImportResult.total (result_so_far st)
    /\ ImportResult.successful (result_so_far st')
       = ImportResult.successful (result_so_far st)
         + List.length (filter (fun o => negb (rejected o)) outs)
    /\ ImportResult.failed (result_so_far st')
       = ImportResult.failed (result_so_far st)
         + List.length (filter rejected outs)
    /\ List.length (ImportResult.errors (result_so_far st'))
       = List.length (ImportResult.errors (result_so_far st))
         + List.length (filter rejected outs)
    /\ submitted st'
       = submitted st ++ records_from fresh_id now_iso user i rest
    /\ List.length outs = List.length rest.
Proof.
  induction rest as [|password rest IH]; intros i st; cbn zeta.
  - cbn [commit_loop records_from responses filter List.length].
    rewrite app_nil_r. repeat split; lia.
  - cbn [commit_loop records_from responses].
    destruct st as [[total successful failed errors] pr store sub].
    cbn [result_so_far store_now submitted].
    destruct (create store (new_record fresh_id now_iso user i password))
      as [store' outcome].
    match goal with
    | |- context [commit_loop _ _ _ _ _ _ _ ?s] => specialize (IH (S i) s)
    end.
    cbn zeta in IH. cbn [result_so_far store_now submitted] in IH.
    destruct IH as (Ht & Hs & Hf & He & Hsub & Hlen).
    rewrite Ht, Hs, Hf, He, Hsub.
    destruct outcome as [error|];
      cbn [filter rejected negb List.length ImportResult.total
           ImportResult.successful ImportResult.failed ImportResult.errors];
      rewrite ?length_app, <- ?app_assoc; cbn [List.length app];
      repeat split; lia.
Qed.

(** C7.  On three candidates, with a store that rejects exactly one of
    the three records, every candidate is submitted, in order, and the
    outcome is 3 in total, 2 successful, 1 failed, with one error
    text. *)
Theorem commit_one_failure_of_three
        (user : string) (c1 c2 c3 : ImportedPassword.t)
        (ui : ImportState.t) (store : Store) :
  failures create fresh_id now_iso store user [c1; c2; c3] = 1 ->
  exists ui' store' r,
    handleImport create (Ok user) fresh_id now_iso [c1; c2; c3] ui store
    = (ui', store', records_from fresh_id now_iso user 0 [c1; c2; c3])
    /\ ImportState.importResult ui' = Some r
    /\ ImportResult.total r = 3
    /\ ImportResult.successful r = 2
    /\ ImportResult.failed r = 1
    /\ List.length (ImportResult.errors r) = 1.
Proof.
  unfold failures. intros Hfail.
  destruct ui as [tab importing progress res toasts].
  unfold handleImport. cbn [List.length Nat.eqb].
  pose proof (commit_loop_spec user 3 [c1; c2; c3] 0
                (mkCommit (ImportResult.mk 3 0 0 []) 0%Q store []))
    as H.
  cbn zeta in H. cbn [result_so_far store_now submitted ImportResult.total
    ImportResult.successful ImportResult.failed ImportResult.errors
    List.length app] in H.
  destruct H as (Ht & Hs & Hf & He & Hsub & Hlen).
  pose proof (filter_length rejected
                (responses create store
                   (records_from fresh_id now_iso user 0 [c1; c2; c3])))
    as Hsplit.
  eexists _, _, _. split; [rewrite <- Hsub; reflexivity|].
  cbn [ImportState.importResult]. split; [reflexivity|].
  repeat split; lia.
Qed.

(** C10.  Whenever the commit runs, that is on a non-empty candidate
    sequence once the user is known, whatever the store answers, the
    outcome it publishes has [successful + failed = total], with [total]
    the number of candidates, and as many error texts as failures. *)
Theorem commit_outcome_balanced
        (user : string) (previewData : list ImportedPassword.t)
        (ui : ImportState.t) (store : Store) :
  previewData <> [] ->
  exists r,
    ImportState.importResult
      (fst (fst (handleImport create (Ok user) fresh_id now_iso
                   previewData ui store))) = Some r
    /\ ImportResult.total r = List.length previewData
    /\ ImportResult.successful r + ImportResult.failed r
       = ImportResult.total r
    /\ List.length (ImportResult.errors r) = ImportResult.failed r.
Proof.
  intros Hne.
  destruct ui as [tab importing progress res toasts].
  unfold handleImport.
  destruct previewData as [|c cs]; [contradiction|].
  cbn [List.length Nat.eqb].
  pose proof (commit_loop_spec user (S (List.length cs)) (c :: cs) 0
                (mkCommit (ImportResult.mk (S (List.length cs)) 0 0 []) 0%Q
                   store []))
    as H.
  cbn zeta in H. cbn [result_so_far store_now submitted ImportResult.total
    ImportResult.successful ImportResult.failed ImportResult.errors
    List.length app] in H.
  destruct H as (Ht & Hs & Hf & He & _ & Hlen).
  pose proof (filter_length rejected
                (responses create store
                   (records_from fresh_id now_iso user 0 (c :: cs))))
    as Hsplit.
  eexists. cbn [fst ImportState.importResult]. split; [reflexivity|].
  cbn [List.length] in Hlen. repeat split; lia.
Qed.

End CommitProperties.

Example decimal_12 : decimal 12 = "12".
Proof. reflexivity. Qed.

Lemma commit_one_failure_of_three_witness :
  exists ui' store' r,
    handleImport unique_title_store (Ok "user_1") sample_id sample_clock
      three_candidates idle []
    = (ui', store', records_from sample_id sample_clock "user_1" 0 three_candidates)
    /\ ImportState.importResult ui' = Some r
    /\ ImportResult.total r = 3
    /\ ImportResult.successful r = 2
    /\ ImportResult.failed r = 1
    /\ List.length (ImportResult.errors r) = 1.
Proof.
  apply (commit_one_failure_of_three (list string) unique_title_store
           sample_id sample_clock "user_1"
           (candidate "Gmail" "mypassword123")
           (candidate "Gmail" "anotherpassword")
           (candidate "Bank" "Xy9!kLp2Qz") idle []).
  vm_compute. reflexivity.
Defined.

Lemma commit_outcome_balanced_witness :
  exists r,
    ImportState.importResult
      (fst (fst (handleImport unique_title_store (Ok "user_1") sample_id
                   sample_clock three_candidates idle []))) = Some r
    /\ ImportResult.total r = List.length three_candidates
    /\ ImportResult.successful r + ImportResult.failed r = ImportResult.total r
    /\ List.length (ImportResult.errors r) = ImportResult.failed r.
Proof.
  apply (commit_outcome_balanced (list string) unique_title_store
           sample_id sample_clock "user_1" three_candidates idle []).
  discriminate.
Defined.

(* ================================================================== *)
(** * Part III: further properties of the code *)
(* ================================================================== *)

(** ** The generator: errors and alphabet *)

Lemma chars_concat_pools (pools : list string) (c : ascii) :
  In c (chars (String.concat "" pools)) ->
  exists pool, In pool pools /\ In c (chars pool).
Proof.
  induction pools as [|p pools IH]; [contradiction|].
  destruct pools as [|q pools].
  - intros H. exists p. split; [left; reflexivity | exact H].
  - cbn [String.concat]. rewrite !chars_append. cbn [chars list_ascii_of_string app].
    intros H. apply in_app_or in H. destruct H as [H|H].
    + exists p. split; [left; reflexivity | exact H].
    + destruct (IH H) as (pool & Hin & Hc). exists pool. split; [right|]; assumption.
Qed.

Section GeneratorEdges.

Variable source : nat -> N.
Variable Array_sort :
  (ascii -> ascii -> Rand Z) -> list ascii -> Rand (list ascii).
Hypothesis Array_sort_perm :
  forall cmp l k, Permutation l (fst (Array_sort cmp l k)).

(** Without any class the call throws, whatever the length and the
    exclusion flag, and draws nothing from the entropy source; with a
    class it returns a string. *)
Theorem generate_throws_iff_no_class (o : GeneratorOptions.t) (k : nat) :
  (enabled_pools o = [] ->
   generate source Array_sort o k
   = (Throw "At least one character type must be selected", k))
  /\ (enabled_pools o <> [] ->
      exists s k', generate source Array_sort o k = (Ok s, k')).
Proof.
  split.
  - destruct o as [len u l n s e]. unfold enabled_pools. simpl.
    destruct u, l, n, s; try discriminate. intros _. destruct e; reflexivity.
  - intros Hne.
    destruct (generate_spec source Array_sort Array_sort_perm o k Hne)
      as (picks & t & sh & k' & Eq & _).
    exists (join sh), k'. exact Eq.
Qed.

(** Every character of a generated password belongs to the pool of an
    enabled class: a disabled class never contributes. *)
Theorem generate_only_enabled_classes (o : GeneratorOptions.t) (k : nat) :
  enabled_pools o <> [] ->
  exists s k',
    generate source Array_sort o k = (Ok s, k')
    /\ Forall (fun c => exists pool,
                   In pool (enabled_pools o) /\ In c (chars pool))
              (chars s).
Proof.
  intros Hne.
  destruct (generate_spec source Array_sort Array_sort_perm o k Hne)
    as (picks & t & sh & k' & Eq & Hp & Hpicks & _ & Hall).
  exists (join sh), k'. split; [exact Eq|].
  rewrite chars_join. apply Forall_forall. intros c Hc.
  apply Permutation_sym in Hp.
  apply (Permutation_in _ Hp), in_app_or in Hc. destruct Hc as [Hc|Hc].
  - clear - Hpicks Hc.
    induction Hpicks as [|a b l l' Hab _ IH]; [contradiction|].
    destruct Hc as [<-|Hc].
    + exists b. split; [left; reflexivity|]. eapply pool_of_chars; eauto.
    + destruct (IH Hc) as (pool & Hin & Hp). exists pool. split; [right|]; auto.
  - rewrite Forall_forall in Hall. specialize (Hall c Hc).
    unfold working_charset in Hall. apply pool_of_chars in Hall.
    apply chars_concat_pools. exact Hall.
Qed.

End GeneratorEdges.

Lemma generate_throws_iff_no_class_witness :
  (enabled_pools unambiguous_request = [] ->
   generate zero_source insertion_sort unambiguous_request 0
   = (Throw "At least one character type must be selected", 0))
  /\ (enabled_pools unambiguous_request <> [] ->
      exists s k',
        generate zero_source insertion_sort unambiguous_request 0 = (Ok s, k')).
Proof.
  exact (generate_throws_iff_no_class zero_source insertion_sort
           insertion_sort_perm unambiguous_request 0).
Defined.

Lemma generate_only_enabled_classes_witness :
  exists s k',
    generate zero_source insertion_sort unambiguous_request 0 = (Ok s, k')
    /\ Forall (fun c => exists pool,
                   In pool (enabled_pools unambiguous_request)
                   /\ In c (chars pool))
              (chars s).
Proof.
  apply (generate_only_enabled_classes zero_source insertion_sort
           insertion_sort_perm unambiguous_request 0).
  discriminate.
Defined.

(** ** The scorers: suggestions, flags and thresholds *)

(** The suggestions in closed form: one text per failed check, in the
    order of the checks. *)
Lemma analyzeStrength_suggestions (password : string) :
  PasswordStrength.suggestions (analyzeStrength password)
  = (if 8 <=? String.length password then []
     else ["Use at least 8 characters"])
    ++ (if test re_lower password then [] else ["Include lowercase letters"])
    ++ (if test re_upper password then [] else ["Include uppercase letters"])
    ++ (if test re_digit password then [] else ["Include numbers"])
    ++ (if test re_non_alnum password then []
        else ["Include special characters"]).
Proof.
  unfold analyzeStrength.
  destruct (Nat.leb_spec 12 (String.length password)) as [H12|H12],
    (Nat.leb_spec 8 (String.length password)) as [H8|H8];
    try lia;
    destruct (test re_lower password), (test re_upper password),
      (test re_digit password), (test re_non_alnum password);
    reflexivity.
Qed.

(** The qualitative scorer has nothing to suggest exactly when the
    password has eight characters or more and holds a lowercase letter, an
    uppercase letter, a digit and a character that is neither. *)
Theorem suggestions_empty_iff (password : string) :
  PasswordStrength.suggestions (analyzeStrength password) = []
  <-> (8 <= String.length password
       /\ test re_lower password = true
       /\ test re_upper password = true
       /\ test re_digit password = true
       /\ test re_non_alnum password = true).
Proof.
  rewrite analyzeStrength_suggestions.
  destruct (Nat.leb_spec 8 (String.length password)) as [H8|H8],
    (test re_lower password), (test re_upper password),
    (test re_digit password), (test re_non_alnum password);
    cbn [app];
    split; intros Hx; try discriminate Hx;
    try (repeat split; (reflexivity || lia));
    try (destruct Hx as (Hx8 & Hl & Hu & Hd & Hs); (discriminate || lia)).
Qed.

(** The two scales extract the same features: a class is reported missing
    by the qualitative scorer exactly when its flag is off in the
    quantitative result. *)
Theorem scales_agree_on_classes (password : string) :
  let suggestions := PasswordStrength.suggestions (analyzeStrength password) in
  let breakdown := calculatePasswordStrength password in
  (In "Include lowercase letters" suggestions
   <-> StrengthBreakdown.hasLowercase breakdown = false)
  /\ (In "Include uppercase letters" suggestions
      <-> StrengthBreakdown.hasUppercase breakdown = false)
  /\ (In "Include numbers" suggestions
      <-> StrengthBreakdown.hasNumbers breakdown = false)
  /\ (In "Include special characters" suggestions
      <-> StrengthBreakdown.hasSymbols breakdown = false).
Proof.
  cbv zeta. rewrite analyzeStrength_suggestions.
  change (StrengthBreakdown.hasLowercase (calculatePasswordStrength password))
    with (test re_lower password).
  change (StrengthBreakdown.hasUppercase (calculatePasswordStrength password))
    with (test re_upper password).
  change (StrengthBreakdown.hasNumbers (calculatePasswordStrength password))
    with (test re_digit password).
  change (StrengthBreakdown.hasSymbols (calculatePasswordStrength password))
    with (test re_non_alnum password).
  destruct (8 <=? String.length password),
    (test re_lower password), (test re_upper password),
    (test re_digit password), (test re_non_alnum password);
    cbn [app In];
    repeat split; intros Hx;
    first [ reflexivity
          | discriminate Hx
          | exfalso; repeat (destruct Hx as [Hx|Hx]; [discriminate Hx|]);
            exact Hx
          | repeat first [left; reflexivity | right] ].
Qed.

(** The number of classes a password holds, as the variety bonus counts
    them. *)
Lemma quantitative_score_by_variety (password : string) :
  let r := calculatePasswordStrength password in
  let variety :=
    List.length
      (filter (fun b : bool => b)
         [StrengthBreakdown.hasUppercase r; StrengthBreakdown.hasLowercase r;
          StrengthBreakdown.hasNumbers r; StrengthBreakdown.hasSymbols r]) in
  (variety <= 1 -> (StrengthBreakdown.score r <= 55)%Z)
  /\ (variety <= 2 -> (StrengthBreakdown.score r <= 70)%Z).
Proof.
  unfold calculatePasswordStrength. cbn [StrengthBreakdown.score
    StrengthBreakdown.hasUppercase StrengthBreakdown.hasLowercase
    StrengthBreakdown.hasNumbers StrengthBreakdown.hasSymbols].
  match goal with
  | |- context [if 16 <=? String.length password then ?a else ?b] =>
      set (L := if 16 <=? String.length password then a else b)
  end.
  assert (HL : (L <= 30)%Z).
  { subst L.
    repeat match goal with
           | |- context [?a <=? ?b] => destruct (a <=? b)
           end; lia. }
  clearbody L.
  destruct (test re_upper password), (test re_lower password),
    (test re_digit password), (test re_non_alnum password),
    (test re_repeated password), (test_common password);
    cbn [filter List.length Nat.leb Nat.eqb]; split; intros Hv; lia.
Qed.

(** A password the health analyzer counts as strong (80 or more) holds at
    least three of the four classes, and one it does not count as weak (60
    or more) holds at least two: length alone never lifts a password out
    of the weak band. *)
Theorem strong_needs_three_classes (password : string) :
  let r := calculatePasswordStrength password in
  let variety :=
    List.length
      (filter (fun b : bool => b)
         [StrengthBreakdown.hasUppercase r; StrengthBreakdown.hasLowercase r;
          StrengthBreakdown.hasNumbers r; StrengthBreakdown.hasSymbols r]) in
  ((80 <= StrengthBreakdown.score r)%Z -> 3 <= variety)
  /\ ((60 <= StrengthBreakdown.score r)%Z -> 2 <= variety).
Proof.
  cbv zeta. destruct (quantitative_score_by_variety password) as [H1 H2].
  cbv zeta in H1, H2. split; intros Hs.
  - destruct (Nat.le_gt_cases 3
      (List.length
         (filter (fun b : bool => b)
            [StrengthBreakdown.hasUppercase (calculatePasswordStrength password);
             StrengthBreakdown.hasLowercase (calculatePasswordStrength password);
             StrengthBreakdown.hasNumbers (calculatePasswordStrength password);
             StrengthBreakdown.hasSymbols (calculatePasswordStrength password)])))
      as [Hge|Hlt]; [exact Hge|].
    assert (Hle : (StrengthBreakdown.score (calculatePasswordStrength password)
                   <= 70)%Z) by (apply H2; lia).
    lia.
  - destruct (Nat.le_gt_cases 2
      (List.length
         (filter (fun b : bool => b)
            [StrengthBreakdown.hasUppercase (calculatePasswordStrength password);
             StrengthBreakdown.hasLowercase (calculatePasswordStrength password);
             StrengthBreakdown.hasNumbers (calculatePasswordStrength password);
             StrengthBreakdown.hasSymbols (calculatePasswordStrength password)])))
      as [Hge|Hlt]; [exact Hge|].
    assert (Hle : (StrengthBreakdown.score (calculatePasswordStrength password)
                   <= 55)%Z) by (apply H1; lia).
    lia.
Qed.

Lemma strong_needs_three_classes_witness :
  3 <= List.length
         (filter (fun b : bool => b)
            [StrengthBreakdown.hasUppercase (calculatePasswordStrength "Tr0ub4dor&9!");
             StrengthBreakdown.hasLowercase (calculatePasswordStrength "Tr0ub4dor&9!");
             StrengthBreakdown.hasNumbers (calculatePasswordStrength "Tr0ub4dor&9!");
             StrengthBreakdown.hasSymbols (calculatePasswordStrength "Tr0ub4dor&9!")]).
Proof.
  apply (proj1 (strong_needs_three_classes "Tr0ub4dor&9!")).
  vm_compute. discriminate.
Defined.

(** ** The master password form *)

Lemma analyzeStrength_score_lower_bound (password : string) :
  8 <= String.length password ->
  test re_lower password = true ->
  test re_upper password = true ->
  test re_digit password = true ->
  test re_non_alnum password = true ->
  test_common password = false ->
  (4 <= PasswordStrength.score (analyzeStrength password))%Z.
Proof.
  intros H8 Hl Hu Hd Hs Hc. unfold analyzeStrength.
  rewrite Hl, Hu, Hd, Hs, Hc.
  destruct (Nat.leb_spec 12 (String.length password)),
    (Nat.leb_spec 8 (String.length password)),
    (16 <=? String.length password), (test re_symbol password),
    (test re_repeated password);
    cbn [PasswordStrength.score]; lia.
Qed.

(** When the six requirements shown on the form are met and the password
    holds no common pattern, the form can be submitted. *)
Theorem requirements_met_can_submit (password confirmPassword : string) :
  forallb snd (requirements password confirmPassword) = true ->
  test_common password = false ->
  canSubmit password confirmPassword = true.
Proof.
  unfold requirements, canSubmit. cbn [forallb snd].
  intros Hreq Hc.
  apply andb_true_iff in Hreq as [H8 Hreq].
  apply andb_true_iff in Hreq as [Hu Hreq].
  apply andb_true_iff in Hreq as [Hl Hreq].
  apply andb_true_iff in Hreq as [Hd Hreq].
  apply andb_true_iff in Hreq as [Hs Hreq].
  apply andb_true_iff in Hreq as [Hm _].
  rewrite H8, Hm. cbn [andb]. apply Z.leb_le.
  apply Nat.leb_le in H8.
  pose proof (analyzeStrength_score_lower_bound password H8 Hl Hu Hd Hs Hc).
  lia.
Qed.

Lemma requirements_met_can_submit_witness :
  canSubmit "Tr0ub4dor&9!" "Tr0ub4dor&9!" = true.
Proof.
  apply (requirements_met_can_submit "Tr0ub4dor&9!" "Tr0ub4dor&9!");
    reflexivity.
Defined.

(** ** The health analyzer: counters, accessors and score *)

Lemma earlier_count_nodup (l : list string) :
  earlier_count l + List.length (nodup string_dec l) = List.length l.
Proof.
  induction l as [|v l IH]; [reflexivity|].
  cbn [earlier_count nodup List.length].
  destruct (in_dec string_dec v l) as [Hin|Hnot].
  - apply existsb_eqb_In in Hin. rewrite Hin. lia.
  - destruct (existsb (String.eqb v) l) eqn:E.
    + apply existsb_eqb_In in E. contradiction.
    + cbn [List.length]. lia.
Qed.

Lemma nodup_rev_length (l : list string) :
  List.length (nodup string_dec (rev l)) = List.length (nodup string_dec l).
Proof.
  apply Nat.le_antisymm; apply NoDup_incl_length;
    try apply NoDup_nodup;
    intros x; rewrite !nodup_In, <- in_rev; auto.
Qed.

Lemma disjoint_filters_length {A} (f g : A -> bool) (l : list A) :
  (forall a, f a = true -> g a = false) ->
  List.length (filter f l) + List.length (filter g l) <= List.length l.
Proof.
  intros Hd. induction l as [|a l IH]; [reflexivity|].
  cbn [filter]. specialize (Hd a).
  destruct (f a), (g a); cbn [List.length]; lia.
Qed.

Section HealthExtras.

Variable Date_parse : string -> option Z.
Variable sixMonthsAgo : Z.

(** The report, field by field. *)
Lemma analyzePasswordHealth_fields (records : list Password.t) :
  let r := analyzePasswordHealth Date_parse sixMonthsAgo records in
  HealthStats.total r = List.length records
  /\ HealthStats.weak r = spec_weakCount records
  /\ HealthStats.duplicate r = spec_duplicateCount records
  /\ HealthStats.old r = spec_staleCount Date_parse sixMonthsAgo records
  /\ HealthStats.strong r = spec_strongCount records
  /\ HealthStats.score r
     = if 0 <? List.length records then
         Qmax 0 (Qmin 100
           (100 - (Q_of_nat (spec_weakCount records)
                   / Q_of_nat (List.length records)) * 40
            - (Q_of_nat (spec_duplicateCount records)
               / Q_of_nat (List.length records)) * 30
            - (Q_of_nat (spec_staleCount Date_parse sixMonthsAgo records)
               / Q_of_nat (List.length records)) * 20
            + (Q_of_nat (spec_strongCount records)
               / Q_of_nat (List.length records)) * 10))%Q
       else 0%Q.
Proof.
  cbv zeta. unfold analyzePasswordHealth.
  destruct (forEach_counts Date_parse sixMonthsAgo
              (List.length records) 0%Q records) as (pv & Efold & _).
  rewrite Efold. cbn [HealthStats.total HealthStats.weak HealthStats.duplicate
    HealthStats.old HealthStats.strong HealthStats.score].
  repeat split; reflexivity.
Qed.

(** The counters of the report agree with the lists behind the tabs: as
    many weak records as [getWeakPasswords] returns, as many old ones as
    [getOldPasswords] returns for the same cutoff. *)
Theorem counters_agree_with_accessors (records : list Password.t) :
  HealthStats.weak (analyzePasswordHealth Date_parse sixMonthsAgo records)
  = List.length (getWeakPasswords records)
  /\ HealthStats.old (analyzePasswordHealth Date_parse sixMonthsAgo records)
     = List.length (getOldPasswords Date_parse sixMonthsAgo records).
Proof.
  destruct (analyzePasswordHealth_fields records)
    as (_ & Hw & _ & Ho & _). cbv zeta in Hw, Ho.
  rewrite Hw, Ho. split; reflexivity.
Qed.

(** The figure shown as unique passwords, [total - duplicate], is the
    number of distinct password values of the vault. *)
Theorem unique_passwords_are_distinct_values (records : list Password.t) :
  let r := analyzePasswordHealth Date_parse sixMonthsAgo records in
  HealthStats.total r - HealthStats.duplicate r
  = List.length (nodup string_dec (map passwordValue records)).
Proof.
  cbv zeta.
  destruct (analyzePasswordHealth_fields records) as (Ht & _ & Hd & _).
  cbv zeta in Ht, Hd. rewrite Ht, Hd. unfold spec_duplicateCount.
  pose proof (earlier_count_nodup (rev (map passwordValue records))) as H.
  rewrite nodup_rev_length, length_rev, length_map in H. lia.
Qed.

(** Bounds of the report: a record is weak or strong but not both, at
    most all records are old, at most all records are duplicates and, in
    a vault that is not empty, fewer than all, since the first holder of
    a value is never one; the score stays within 0 and 100. *)
Theorem health_report_bounds (records : list Password.t) :
  let r := analyzePasswordHealth Date_parse sixMonthsAgo records in
  HealthStats.weak r + HealthStats.strong r <= HealthStats.total r
  /\ HealthStats.old r <= HealthStats.total r
  /\ HealthStats.duplicate r <= HealthStats.total r
  /\ (records <> [] -> HealthStats.duplicate r < HealthStats.total r)
  /\ (0 <= HealthStats.score r)%Q
  /\ (HealthStats.score r <= 100)%Q.
Proof.
  cbv zeta.
  destruct (analyzePasswordHealth_fields records)
    as (Ht & Hw & Hd & Ho & Hs & Hsc).
  cbv zeta in Ht, Hw, Hd, Ho, Hs, Hsc. rewrite Ht, Hw, Hd, Ho, Hs, Hsc.
  split; [|split; [|split; [|split; [|split]]]].
  - unfold spec_weakCount, spec_strongCount.
    apply disjoint_filters_length. intros p Hp.
    apply Z.ltb_lt in Hp. apply Z.leb_gt. lia.
  - unfold spec_staleCount. apply filter_length_le.
  - unfold spec_duplicateCount.
    pose proof (earlier_count_nodup (rev (map passwordValue records))) as H.
    rewrite length_rev, length_map in H. lia.
  - intros Hne. unfold spec_duplicateCount.
    pose proof (earlier_count_nodup (rev (map passwordValue records))) as H.
    rewrite length_rev, length_map in H.
    destruct records as [|p records]; [contradiction|].
    assert (Hpos : 0 < List.length
                         (nodup string_dec (rev (map passwordValue (p :: records))))).
    { destruct (nodup string_dec (rev (map passwordValue (p :: records))))
        as [|x xs] eqn:E; [|simpl; lia].
      exfalso.
      assert (Hin : In (passwordValue p)
                       (nodup string_dec (rev (map passwordValue (p :: records))))).
      { apply nodup_In, in_rev. rewrite rev_involutive. left. reflexivity. }
      rewrite E in Hin. contradiction. }
    lia.
  - destruct (0 <? List.length records); [apply Q.le_max_l | apply Qle_refl].
  - destruct (0 <? List.length records); [|discriminate].
    apply Q.max_lub; [discriminate | apply Q.le_min_l].
Qed.

(** A vault that is not empty and has no weak, no duplicate and no old
    record scores 100, whatever the number of strong records, and is
    labelled Excellent. *)
Theorem clean_vault_scores_100 (records : list Password.t) :
  let r := analyzePasswordHealth Date_parse sixMonthsAgo records in
  records <> [] ->
  HealthStats.weak r = 0 ->
  HealthStats.duplicate r = 0 ->
  HealthStats.old r = 0 ->
  (HealthStats.score r == 100)%Q
  /\ getScoreLabel (HealthStats.score r) = "Excellent".
Proof.
  cbv zeta. intros Hne Hw Hd Ho.
  assert (Hscore : (HealthStats.score
                      (analyzePasswordHealth Date_parse sixMonthsAgo records)
                    == 100)%Q).
  { destruct (analyzePasswordHealth_fields records)
      as (_ & Ew & Ed & Eo & _ & Hsc).
    cbv zeta in Ew, Ed, Eo, Hsc. rewrite Hsc.
    rewrite <- Ew, <- Ed, <- Eo, Hw, Hd, Ho.
    destruct records as [|p records]; [contradiction|].
    cbn [List.length Nat.ltb Nat.leb].
    set (t := Q_of_nat (S (List.length records))).
    set (s := Q_of_nat (spec_strongCount (p :: records))).
    assert (Ht : (0 < t)%Q).
    { unfold t, Q_of_nat. change 0%Q with (inject_Z 0).
      rewrite <- Zlt_Qlt. lia. }
    assert (Hs : (0 <= s)%Q).
    { unfold s, Q_of_nat. change 0%Q with (inject_Z 0).
      rewrite <- Zle_Qle. lia. }
    assert (Hx : (0 <= s / t * 10)%Q).
    { apply Qmult_le_0_compat; [|discriminate].
      apply Qle_shift_div_l; [exact Ht|]. rewrite Qmult_0_l. exact Hs. }
    rewrite Q.min_l.
    - apply Q.max_r. discriminate.
    - unfold Q_of_nat at 1 2 3. cbn [Z.of_nat].
      setoid_replace (100 - inject_Z 0 / t * 40 - inject_Z 0 / t * 30
                      - inject_Z 0 / t * 20 + s / t * 10)%Q
        with (100 + s / t * 10)%Q
        by (unfold Qdiv; change (inject_Z 0) with 0%Q; ring).
      rewrite <- (Qplus_0_r 100) at 1.
      apply Qplus_le_r. exact Hx. }
  split; [exact Hscore|].
  unfold getScoreLabel.
  assert (H80 : Qle_bool 80
                  (HealthStats.score
                     (analyzePasswordHealth Date_parse sixMonthsAgo records))
                = true).
  { apply Qle_bool_iff. rewrite Hscore. discriminate. }
  rewrite H80. reflexivity.
Qed.

End HealthExtras.

Lemma health_report_bounds_witness :
  HealthStats.duplicate
    (analyzePasswordHealth (fun _ => Some 1%Z) 0 sample_vault)
  < HealthStats.total
      (analyzePasswordHealth (fun _ => Some 1%Z) 0 sample_vault).
Proof.
  apply (health_report_bounds (fun _ => Some 1%Z) 0%Z sample_vault).
  discriminate.
Defined.

Lemma clean_vault_scores_100_witness :
  (HealthStats.score (analyzePasswordHealth (fun _ => Some 1%Z) 0 sample_vault)
   == 100)%Q
  /\ getScoreLabel
       (HealthStats.score
          (analyzePasswordHealth (fun _ => Some 1%Z) 0 sample_vault))
     = "Excellent".
Proof.
  apply (clean_vault_scores_100 (fun _ => Some 1%Z) 0%Z sample_vault).
  - discriminate.
  - reflexivity.
  - reflexivity.
  - reflexivity.
Defined.

(** ** The duplicate accessor *)

Lemma own_get_In {V} (o : JsObject V) (key : string) (v : V) :
  own_get o key = Some v -> In (key, v) o.
Proof.
  induction o as [|[k w] o IH]; [discriminate|]. cbn [own_get].
  destruct (String.eqb_spec k key) as [->|Hne].
  - intros [= ->]. left. reflexivity.
  - intros H. right. auto.
Qed.

Lemma own_get_None {V} (o : JsObject V) (key : string) :
  own_get o key = None -> ~ In key (map fst o).
Proof.
  induction o as [|[k w] o IH]; [intros _ []|]. cbn [own_get map fst].
  destruct (String.eqb_spec k key) as [->|Hne]; [discriminate|].
  intros H [Hk|Hin]; [contradiction | exact (IH H Hin)].
Qed.

Lemma own_set_absent {V} (o : JsObject V) (key : string) (v : V) :
  own_get o key = None -> own_set o key v = o ++ [(key, v)].
Proof.
  induction o as [|[k w] o IH]; [reflexivity|]. cbn [own_get own_set app].
  destruct (String.eqb k key); [discriminate|].
  intros H. now rewrite IH.
Qed.

Lemma own_set_keys {V} (o : JsObject V) (key : string) (g v : V) :
  own_get o key = Some g -> map fst (own_set o key v) = map fst o.
Proof.
  induction o as [|[k w] o IH]; [discriminate|]. cbn [own_get own_set].
  destruct (String.eqb k key); [reflexivity|].
  intros H. cbn [map fst]. now rewrite IH.
Qed.

Lemma own_set_In {V} (o : JsObject V) (key : string) (g v : V) :
  NoDup (map fst o) ->
  own_get o key = Some g ->
  forall k w,
    In (k, w) (own_set o key v)
    <-> (k = key /\ w = v) \/ (k <> key /\ In (k, w) o).
Proof.
  induction o as [|[k0 w0] o IH]; [discriminate|].
  cbn [map fst own_get own_set]. intros Hnd Hget k w.
  inversion Hnd as [|? ? Hnotin Hnd']; subst.
  destruct (String.eqb_spec k0 key) as [->|Hne].
  - cbn [In]. split.
    + intros [[= <- <-]|Hin]; [left; auto|].
      right. split; [|right; exact Hin].
      intros ->. apply Hnotin. apply (in_map fst) in Hin. exact Hin.
    + intros [[-> ->]|[Hk [[= -> ->]|Hin]]]; auto. contradiction.
  - cbn [In]. rewrite (IH Hnd' Hget k w). split.
    + intros [[= <- <-]|[[-> ->]|[Hk Hin]]]; auto.
    + intros [[-> ->]|[Hk [[= <- <-]|Hin]]]; auto.
Qed.

Lemma insert_index_In {V} (n : N) (v : V) (l : list (N * V)) (x : N * V) :
  In x (insert_index n v l) <-> x = (n, v) \/ In x l.
Proof.
  induction l as [|[m w] l IH]; cbn [insert_index In].
  - split; intros [H|[]]; auto.
  - destruct (n <? m)%N; cbn [In]; [|rewrite IH]; intuition.
Qed.

Lemma index_entries_In {V} (o : JsObject V) (n : N) (v : V) :
  In (n, v) (index_entries o)
  <-> exists k, In (k, v) o /\ array_index k = Some n.
Proof.
  induction o as [|[k w] o IH]; cbn [index_entries].
  - split; [intros [] | intros (k & [] & _)].
  - destruct (array_index k) as [m|] eqn:E.
    + rewrite insert_index_In, IH. cbn [In]. split.
      * intros [[= -> ->]|(k' & Hin & Ek)]; [exists k | exists k']; auto.
      * intros (k' & [[= <- <-]|Hin] & Ek).
        -- left. congruence.
        -- right. exists k'. auto.
    + rewrite IH. cbn [In]. split.
      * intros (k' & Hin & Ek). exists k'. auto.
      * intros (k' & [[= <- <-]|Hin] & Ek); [congruence|]. exists k'. auto.
Qed.

Lemma named_entries_In {V} (o : JsObject V) (v : V) :
  In v (named_entries o)
  <-> exists k, In (k, v) o /\ array_index k = None.
Proof.
  induction o as [|[k w] o IH]; cbn [named_entries].
  - split; [intros [] | intros (k & [] & _)].
  - destruct (array_index k) as [m|] eqn:E; cbn [In]; rewrite IH; split.
    + intros (k' & Hin & Ek). exists k'. auto.
    + intros (k' & [[= <- <-]|Hin] & Ek); [congruence|]. exists k'. auto.
    + intros [->|(k' & Hin & Ek)]; [exists k | exists k']; auto.
    + intros (k' & [[= <- <-]|Hin] & Ek); [left; reflexivity|].
      right. exists k'. auto.
Qed.

Lemma Object_values_In {V} (o : JsObject V) (v : V) :
  In v (Object_values o) <-> exists k, In (k, v) o.
Proof.
  unfold Object_values. rewrite in_app_iff, in_map_iff, named_entries_In.
  split.
  - intros [([n u] & Eu & Hin)|(k & Hin & _)].
    + cbn [snd] in Eu. subst u. apply index_entries_In in Hin.
      destruct Hin as (k & Hin & _). exists k. exact Hin.
    + exists k. exact Hin.
  - intros (k & Hin). destruct (array_index k) as [n|] eqn:E.
    + left. exists (n, v). split; [reflexivity|].
      apply index_entries_In. exists k. auto.
    + right. exists k. auto.
Qed.

Lemma same_value_app (key : string) (l : list Password.t) (x : Password.t) :
  same_value key (l ++ [x])
  = same_value key l ++ (if String.eqb (passwordValue x) key then [x] else []).
Proof. unfold same_value. rewrite filter_app. reflexivity. Qed.

(** The loop invariant of [passwords.forEach] in [getDuplicatePasswords]:
    either no value so far names an inherited property and the object
    holds, under each value seen, the records that carry it, or the loop
    has thrown at such a value. *)
Lemma group_fold_spec (l : list Password.t) :
  match fold_left group_record l (Ok []) with
  | Ok o =>
      (forall p, In p l -> inherited (passwordValue p) = false)
      /\ NoDup (map fst o)
      /\ (forall k g, In (k, g) o -> g = same_value k l /\ g <> [])
      /\ (forall p, In p l -> In (passwordValue p) (map fst o))
  | Throw e =>
      e = "passwordGroups[passwordValue].push is not a function"
      /\ exists p, In p l /\ inherited (passwordValue p) = true
  end.
Proof.
  induction l as [|x l IH] using rev_ind.
  - cbn. repeat split; try constructor; intros; contradiction.
  - rewrite fold_left_app. cbn [fold_left].
    destruct (fold_left group_record l (Ok [])) as [o|e]; cbn [group_record].
    2:{ destruct IH as (-> & p & Hin & Hp). split; [reflexivity|].
        exists p. split; [apply in_or_app; left|]; assumption. }
    destruct IH as (Hno & Hnd & Hgroups & Hkeys).
    destruct (own_get o (passwordValue x)) as [g|] eqn:Eget.
    + pose proof (own_get_In _ _ _ Eget) as Hin.
      destruct (Hgroups _ _ Hin) as [Eg Hne].
      assert (Hx : inherited (passwordValue x) = false).
      { destruct g as [|p' g']; [contradiction|].
        assert (Hp' : In p' (same_value (passwordValue x) l))
          by (rewrite <- Eg; left; reflexivity).
        apply filter_In in Hp'. destruct Hp' as [Hp' E].
        apply String.eqb_eq in E. rewrite <- E. auto. }
      split; [|split; [|split]].
      * intros p Hp. apply in_app_or in Hp. destruct Hp as [Hp|[<-|[]]]; auto.
      * rewrite (own_set_keys _ _ _ _ Eget). exact Hnd.
      * intros k g' Hk. apply (own_set_In _ _ _ _ Hnd Eget) in Hk.
        rewrite same_value_app.
        destruct Hk as [[-> ->]|[Hk Hk']].
        -- rewrite String.eqb_refl, <- Eg. split; [reflexivity|].
           intros E. apply app_eq_nil in E. destruct E as [_ E]. discriminate.
        -- destruct (String.eqb_spec (passwordValue x) k) as [E|_];
             [symmetry in E; contradiction|].
           rewrite app_nil_r. auto.
      * intros p Hp. rewrite (own_set_keys _ _ _ _ Eget).
        apply in_app_or in Hp. destruct Hp as [Hp|[<-|[]]]; auto.
        apply (in_map fst) in Hin. exact Hin.
    + pose proof (own_get_None _ _ Eget) as Hnot.
      destruct (inherited (passwordValue x)) eqn:Ex.
      * split; [reflexivity|]. exists x. split; [|exact Ex].
        apply in_or_app. right. left. reflexivity.
      * rewrite (own_set_absent _ _ _ Eget).
        split; [|split; [|split]].
        -- intros p Hp. apply in_app_or in Hp.
           destruct Hp as [Hp|[<-|[]]]; auto.
        -- rewrite map_app. apply NoDup_app; [exact Hnd| |].
           ++ cbn. constructor; [intros []|constructor].
           ++ intros k Hk [<-|[]]. contradiction.
        -- intros k g Hk. rewrite same_value_app.
           apply in_app_or in Hk. destruct Hk as [Hk|[[= <- <-]|[]]].
           ++ destruct (Hgroups _ _ Hk) as [Eg Hne].
              destruct (String.eqb_spec (passwordValue x) k) as [E|_].
              ** exfalso. apply Hnot. rewrite E.
                 apply (in_map fst) in Hk. exact Hk.
              ** rewrite app_nil_r. auto.
           ++ rewrite String.eqb_refl.
              assert (E : same_value (passwordValue x) l = []).
              { destruct (same_value (passwordValue x) l) as [|p' g'] eqn:E;
                  [reflexivity|].
                exfalso. apply Hnot.
                assert (Hp' : In p' (same_value (passwordValue x) l))
                  by (rewrite E; left; reflexivity).
                apply filter_In in Hp'. destruct Hp' as [Hp' E'].
                apply String.eqb_eq in E'. rewrite <- E'. auto. }
              rewrite E. split; [reflexivity | discriminate].
        -- intros p Hp. rewrite map_app. apply in_or_app.
           apply in_app_or in Hp. destruct Hp as [Hp|[<-|[]]]; auto.
           right. left. reflexivity.
Qed.

(** When no password value names a property of [Object.prototype], the
    accessor returns, and a record is in the result exactly when it is in
    the vault and its value is carried by two records or more. *)
Theorem duplicates_are_shared_values (passwords : list Password.t) :
  (forall p, In p passwords -> inherited (passwordValue p) = false) ->
  exists duplicates,
    getDuplicatePasswords passwords = Ok duplicates
    /\ forall p,
         In p duplicates
         <-> In p passwords
             /\ 2 <= List.length (same_value (passwordValue p) passwords).
Proof.
  intros Hno. unfold getDuplicatePasswords.
  pose proof (group_fold_spec passwords) as H.
  destruct (fold_left group_record passwords (Ok [])) as [o|e].
  2:{ destruct H as (_ & p & Hin & Hp). rewrite (Hno p Hin) in Hp. discriminate. }
  destruct H as (_ & Hnd & Hgroups & Hkeys).
  eexists. split; [reflexivity|].
  intros p. rewrite in_concat. split.
  - intros (g & Hg & Hp). apply filter_In in Hg. destruct Hg as [Hg Hlen].
    apply Object_values_In in Hg. destruct Hg as (k & Hk).
    destruct (Hgroups _ _ Hk) as [-> _].
    apply Nat.ltb_lt in Hlen.
    apply filter_In in Hp. destruct Hp as [Hp E].
    apply String.eqb_eq in E. rewrite E. split; [exact Hp | lia].
  - intros [Hp Hlen].
    specialize (Hkeys p Hp). apply in_map_iff in Hkeys.
    destruct Hkeys as ([k g] & Ek & Hk). cbn [fst] in Ek. subst k.
    destruct (Hgroups _ _ Hk) as [Eg _].
    exists g. split.
    + apply filter_In. split.
      * apply Object_values_In. exists (passwordValue p). exact Hk.
      * apply Nat.ltb_lt. rewrite Eg. lia.
    + rewrite Eg. apply filter_In. split; [exact Hp | apply String.eqb_refl].
Qed.

Lemma duplicates_are_shared_values_witness :
  exists duplicates,
    getDuplicatePasswords sample_vault = Ok duplicates
    /\ forall p,
         In p duplicates
         <-> In p sample_vault
             /\ 2 <= List.length (same_value (passwordValue p) sample_vault).
Proof.
  apply (duplicates_are_shared_values sample_vault).
  intros p [<-|[<-|[]]]; reflexivity.
Defined.

(** The accessor throws exactly when some record's password value names a
    property that every object inherits, such as [constructor] or
    [toString]. *)
Theorem duplicates_throw_on_inherited_key (passwords : list Password.t) :
  getDuplicatePasswords passwords
  = Throw "passwordGroups[passwordValue].push is not a function"
  <-> exists p, In p passwords /\ inherited (passwordValue p) = true.
Proof.
  unfold getDuplicatePasswords.
  pose proof (group_fold_spec passwords) as H.
  destruct (fold_left group_record passwords (Ok [])) as [o|e].
  - destruct H as (Hno & _). split; [discriminate|].
    intros (p & Hin & Hp). rewrite (Hno p Hin) in Hp. discriminate.
  - destruct H as (-> & Hex). split; [intros _; exact Hex | reflexivity].
Qed.

(** ** The repeated-character test *)

(** A password without a backslash never matches the repeated-character
    pattern of the two scorers, however long its runs of equal characters
    are: on such a password neither scorer applies the penalty. *)
Theorem repeated_test_needs_backslash (password : string) :
  ~ In "\"%char (chars password) -> test re_repeated password = false.
Proof. intros H. apply search_repeated_needs_backslash. exact H. Qed.

Lemma repeated_test_needs_backslash_witness :
  test re_repeated "aaaaaaaa" = false.
Proof.
  apply (repeated_test_needs_backslash "aaaaaaaa").
  vm_compute. intuition discriminate.
Defined.

(** ** The CSV parser: what a candidate always holds *)

Lemma js_or_truthy (a : option string) (b : string) :
  b <> "" -> js_or a b <> "".
Proof. destruct a as [[|c s]|]; cbn; auto; discriminate. Qed.

Lemma truthy_true (s : string) : truthy s = true <-> s <> "".
Proof.
  unfold truthy. destruct (String.eqb_spec s ""); split; intros H;
    try discriminate; try reflexivity; try contradiction.
  intros E. contradiction.
Qed.

Lemma assign_header_category (header value : string) (p : ImportedPassword.t) :
  ImportedPassword.category p <> "" ->
  ImportedPassword.category (assign_header header value p) <> "".
Proof.
  destruct p as [t u e pw w c n]. unfold assign_header. cbn.
  intros Hc.
  repeat match goal with
         | |- context [if ?b then _ else _] => destruct b
         end; cbn; auto; discriminate.
Qed.

Lemma assign_headers_category (headers : list string) :
  forall index values p,
    ImportedPassword.category p <> "" ->
    ImportedPassword.category (assign_headers headers index values p) <> "".
Proof.
  induction headers as [|h headers IH]; intros index values p Hc; cbn; auto.
  apply IH. apply assign_header_category. exact Hc.
Qed.

Lemma with_title_fallback_fields (i : nat) (p : ImportedPassword.t) :
  ImportedPassword.title (with_title_fallback i p) <> ""
  /\ ImportedPassword.category (with_title_fallback i p)
     = ImportedPassword.category p.
Proof.
  unfold with_title_fallback. destruct p as [t u e pw w c n]. cbn.
  destruct (truthy t) eqn:Et; cbn.
  - split; [apply truthy_true; exact Et | reflexivity].
  - split; [|reflexivity]. apply js_or_truthy. discriminate.
Qed.

Lemma csv_rows_Forall (P : ImportedPassword.t -> Prop) (headers : list string)
      (rows : list string) :
  (forall i line,
      truthy (ImportedPassword.password
                (with_title_fallback i (resolve_row headers line))) = true ->
      P (with_title_fallback i (resolve_row headers line))) ->
  forall i passwords,
    Forall P passwords -> Forall P (csv_rows headers i rows passwords).
Proof.
  intros HP. induction rows as [|line rows IH]; intros i passwords Hall;
    cbn [csv_rows]; auto.
  apply IH.
  destruct (truthy (ImportedPassword.password
                      (with_title_fallback i (resolve_row headers line))))
    eqn:E; auto.
  apply Forall_app. split; auto.
Qed.

(** Every candidate the CSV parser returns has a title, a password and a
    category that are not empty. *)
Theorem parseCSV_candidates_complete (text : string)
        (parsed : list ImportedPassword.t) :
  parseCSV text = Ok parsed ->
  Forall (fun p => ImportedPassword.title p <> ""
                   /\ ImportedPassword.password p <> ""
                   /\ ImportedPassword.category p <> "")
         parsed.
Proof.
  unfold parseCSV.
  destruct (List.length (csv_lines text) <? 2); [discriminate|].
  intros [= <-]. apply csv_rows_Forall; [|constructor].
  intros i line Hpw.
  destruct (with_title_fallback_fields i
              (resolve_row (csv_headers (csv_lines text)) line)) as [Ht Hc].
  split; [exact Ht|]. split; [apply truthy_true; exact Hpw|].
  rewrite Hc. apply assign_headers_category. discriminate.
Qed.

Lemma parseCSV_candidates_complete_witness :
  exists parsed,
    parseCSV sample_csv = Ok parsed
    /\ Forall (fun p => ImportedPassword.title p <> ""
                        /\ ImportedPassword.password p <> ""
                        /\ ImportedPassword.category p <> "")
              parsed.
Proof.
  eexists. split; [vm_compute; reflexivity|].
  apply (parseCSV_candidates_complete sample_csv). vm_compute. reflexivity.
Defined.

Lemma assign_header_password (header value : string) (p : ImportedPassword.t) :
  header <> "password" ->
  ImportedPassword.password (assign_header header value p)
  = ImportedPassword.password p.
Proof.
  intros Hne. destruct p as [t u e pw w c n]. unfold assign_header.
  destruct (String.eqb_spec header "password") as [E|_]; [contradiction|].
  repeat match goal with
         | |- context [if ?b then _ else _] => destruct b
         end; reflexivity.
Qed.

Lemma assign_headers_password (headers : list string) :
  ~ In "password" headers ->
  forall index values p,
    ImportedPassword.password (assign_headers headers index values p)
    = ImportedPassword.password p.
Proof.
  induction headers as [|h headers IH]; intros Hno index values p; cbn;
    [reflexivity|].
  rewrite IH by (intros H; apply Hno; right; exact H).
  apply assign_header_password. intros ->. apply Hno. left. reflexivity.
Qed.

Lemma csv_rows_all_dropped (headers : list string) (rows : list string) :
  ~ In "password" headers ->
  forall i passwords, csv_rows headers i rows passwords = passwords.
Proof.
  intros Hno. induction rows as [|line rows IH]; intros i passwords;
    cbn [csv_rows]; [reflexivity|].
  rewrite with_title_fallback_password. unfold resolve_row.
  rewrite (assign_headers_password headers Hno). cbn. apply IH.
Qed.

(** A file whose header row has no [password] column parses without error
    to no candidate at all: every data row is dropped. *)
Theorem parseCSV_without_password_column (text : string) :
  2 <= List.length (csv_lines text) ->
  ~ In "password" (csv_headers (csv_lines text)) ->
  parseCSV text = Ok [].
Proof.
  intros Hlen Hno. unfold parseCSV.
  destruct (Nat.ltb_spec (List.length (csv_lines text)) 2); [lia|].
  now rewrite csv_rows_all_dropped.
Qed.

Lemma parseCSV_without_password_column_witness :
  parseCSV no_password_csv = Ok [].
Proof.
  apply (parseCSV_without_password_column no_password_csv).
  - vm_compute. lia.
  - vm_compute. intuition discriminate.
Defined.

Lemma split_length (sep : ascii) (s : string) :
  List.length (split sep s) = S (count_occ ascii_dec (chars s) sep).
Proof.
  induction s as [|c s IH]; [reflexivity|].
  cbn [split chars list_ascii_of_string count_occ].
  fold (chars s).
  destruct (Ascii.eqb_spec c sep) as [->|Hne].
  - destruct (ascii_dec sep sep); [|contradiction]. cbn. now rewrite IH.
  - destruct (ascii_dec c sep); [contradiction|].
    destruct (split sep s) as [|piece pieces]; cbn in *; lia.
Qed.

(** A data row yields one value more than it has commas: a comma inside
    double quotes separates values like any other. *)
Theorem csv_values_count (line : string) :
  List.length (csv_values line)
  = S (count_occ ascii_dec (chars line) ","%char).
Proof. unfold csv_values. rewrite length_map. apply split_length. Qed.

(** ** The fallback parser *)

Lemma split_by_length (sep : ascii -> bool) (s : string) :
  List.length (split_by sep s) = S (List.length (filter sep (chars s))).
Proof.
  induction s as [|c s IH]; [reflexivity|].
  cbn [split_by chars list_ascii_of_string filter]. fold (chars s).
  destruct (sep c).
  - cbn. now rewrite IH.
  - destruct (split_by sep s) as [|piece pieces]; cbn in *; lia.
Qed.

Lemma existsb_filter_length {A} (f : A -> bool) (l : list A) :
  existsb f l = (0 <? List.length (filter f l)).
Proof.
  induction l as [|a l IH]; [reflexivity|]. cbn [existsb filter].
  destruct (f a); [reflexivity | exact IH].
Qed.

Lemma generic_line_length (index : nat) (line : string)
      (passwords : list ImportedPassword.t) :
  List.length (generic_line index line passwords)
  = List.length passwords + (if has_separator line then 1 else 0).
Proof.
  unfold generic_line, has_separator.
  rewrite length_map, split_by_length, existsb_filter_length.
  destruct (List.length (filter is_separator (chars line))) as [|n].
  - cbn. lia.
  - cbn [Nat.leb Nat.ltb]. rewrite length_app. cbn. lia.
Qed.

Lemma generic_lines_length (lines : list string) :
  forall index passwords,
    List.length (generic_lines index lines passwords)
    = List.length passwords + List.length (filter has_separator lines).
Proof.
  induction lines as [|line lines IH]; intros index passwords;
    cbn [generic_lines filter]; [cbn [List.length]; lia|].
  rewrite IH, generic_line_length.
  destruct (has_separator line); cbn [List.length]; lia.
Qed.

(** The fallback parser never fails and returns one candidate for each
    non-blank line that holds a tab, a comma or a semicolon; a line
    without any is skipped. *)
Theorem parseGeneric_count (text : string) :
  List.length (parseGeneric text)
  = List.length (filter has_separator (csv_lines text)).
Proof. unfold parseGeneric. now rewrite generic_lines_length. Qed.

Lemma generic_lines_Forall (P : ImportedPassword.t -> Prop)
      (lines : list string) :
  (forall index line passwords,
      Forall P passwords -> Forall P (generic_line index line passwords)) ->
  forall index passwords,
    Forall P passwords -> Forall P (generic_lines index lines passwords).
Proof.
  intros HP. induction lines as [|line lines IH]; intros index passwords Hall;
    cbn [generic_lines]; auto.
Qed.

(** Every candidate of the fallback parser is filed under Personal, has a
    title that is not empty and no e-mail address. *)
Theorem parseGeneric_candidates (text : string) :
  Forall (fun p => ImportedPassword.category p = "Personal"
                   /\ ImportedPassword.title p <> ""
                   /\ ImportedPassword.email p = None)
         (parseGeneric text).
Proof.
  unfold parseGeneric. apply generic_lines_Forall; [|constructor].
  intros index line passwords Hall. unfold generic_line.
  destruct (2 <=? List.length (map trim (split_by is_separator line)));
    [|exact Hall].
  apply Forall_app. split; [exact Hall|]. constructor; [|constructor].
  cbn. split; [reflexivity|]. split; [|reflexivity].
  apply js_or_truthy. discriminate.
Qed.

(** ** The JSON parser *)

Section JsonProperties.

Variable Num : Type.
Variable num_is_zero : Num -> bool.
Variable JSON_parse : string -> result (JsonValue Num).

Lemma any_or_truthy (a b : option (JsonValue Num)) :
  json_truthy Num num_is_zero b = true ->
  json_truthy Num num_is_zero (any_or Num num_is_zero a b) = true.
Proof.
  intros Hb. unfold any_or.
  destruct (json_truthy Num num_is_zero a) eqn:Ea; assumption.
Qed.

Lemma json_item_not_null (index : nat) (item : JsonValue Num) :
  is_null item = false ->
  exists it,
    json_item Num num_is_zero index item = Ok it
    /\ json_truthy Num num_is_zero (item_title Num it) = true
    /\ json_truthy Num num_is_zero (item_category Num it) = true.
Proof.
  intros Hn. unfold json_item. rewrite Hn. eexists. split; [reflexivity|].
  cbn [item_title item_category]. split.
  - apply any_or_truthy, any_or_truthy. reflexivity.
  - apply any_or_truthy. reflexivity.
Qed.

Lemma json_items_no_null (items : list (JsonValue Num)) :
  forall index,
    existsb is_null items = false ->
    exists parsed,
      json_items Num num_is_zero index items = Ok parsed
      /\ List.length parsed = List.length items
      /\ Forall (fun it =>
                   json_truthy Num num_is_zero (item_title Num it) = true
                   /\ json_truthy Num num_is_zero (item_category Num it) = true)
                parsed.
Proof.
  induction items as [|item items IH]; intros index Hno.
  - exists []. repeat split; constructor.
  - cbn [existsb] in Hno. apply orb_false_iff in Hno. destruct Hno as [Hn Hno].
    destruct (json_item_not_null index item Hn) as (it & Eit & Ht & Hc).
    destruct (IH (S index) Hno) as (parsed & Ep & Hlen & Hall).
    exists (it :: parsed). cbn [json_items]. rewrite Eit, Ep.
    split; [reflexivity|]. split; [cbn; congruence|].
    constructor; auto.
Qed.

Lemma json_items_null (items : list (JsonValue Num)) :
  forall index,
    existsb is_null items = true ->
    json_items Num num_is_zero index items
    = Throw "TypeError: Cannot read properties of null".
Proof.
  induction items as [|item items IH]; intros index Hex; [discriminate|].
  cbn [existsb] in Hex. cbn [json_items]. unfold json_item at 1.
  destruct (is_null item) eqn:Hn; [reflexivity|].
  cbn [orb] in Hex. now rewrite (IH (S index) Hex).
Qed.

(** An array without [null] element parses to as many candidates as it
    has elements, whatever they hold: nothing is dropped, not even an
    element without password, and every candidate has a truthy title and
    a truthy category. *)
Theorem parseJSON_keeps_every_element
        (text : string) (items : list (JsonValue Num)) :
  JSON_parse text = Ok (JArr items) ->
  existsb is_null items = false ->
  exists parsed,
    parseJSON Num num_is_zero JSON_parse text = Ok parsed
    /\ List.length parsed = List.length items
    /\ Forall (fun it =>
                 json_truthy Num num_is_zero (item_title Num it) = true
                 /\ json_truthy Num num_is_zero (item_category Num it) = true)
              parsed.
Proof.
  intros Hparse Hno. unfold parseJSON. rewrite Hparse.
  apply json_items_no_null. exact Hno.
Qed.

(** On a text that is valid JSON the parser succeeds exactly when the
    document is an array none of whose elements is [null]: any other
    document, and a single [null] element, fails the whole file. *)
Theorem parseJSON_succeeds_iff (text : string) (data : JsonValue Num) :
  JSON_parse text = Ok data ->
  ((exists parsed, parseJSON Num num_is_zero JSON_parse text = Ok parsed)
   <-> exists items, data = JArr items /\ existsb is_null items = false).
Proof.
  intros Hparse. unfold parseJSON. rewrite Hparse. split.
  - intros (parsed & E). destruct data as [| | | |items|]; try discriminate.
    exists items. split; [reflexivity|].
    destruct (existsb is_null items) eqn:Hex; [|reflexivity].
    rewrite (json_items_null items 0 Hex) in E. discriminate.
  - intros (items & -> & Hno).
    destruct (json_items_no_null items 0 Hno) as (parsed & E & _).
    exists parsed. exact E.
Qed.

End JsonProperties.

Lemma parseJSON_keeps_every_element_witness :
  exists parsed,
    parseJSON Z (Z.eqb 0) sample_JSON_parse "[]" = Ok parsed
    /\ List.length parsed = 1
    /\ Forall (fun it =>
                 json_truthy Z (Z.eqb 0) (item_title Z it) = true
                 /\ json_truthy Z (Z.eqb 0) (item_category Z it) = true)
              parsed.
Proof.
  apply (parseJSON_keeps_every_element Z (Z.eqb 0) sample_JSON_parse "[]"
           [JObj [("name", JStr "Gmail"); ("password", JStr "x")]]);
    reflexivity.
Defined.

Lemma parseJSON_succeeds_iff_witness :
  (exists parsed, parseJSON Z (Z.eqb 0) sample_JSON_parse "[]" = Ok parsed)
  <-> exists items, sample_json = JArr items /\ existsb is_null items = false.
Proof.
  apply (parseJSON_succeeds_iff Z (Z.eqb 0) sample_JSON_parse "[]" sample_json).
  reflexivity.
Defined.

(** ** The commit: error texts, store, progress and aborted runs *)

Section CommitExtras.

Variable Store : Type.
Variable create : Store -> NewPassword.t -> Store * option string.
Variable fresh_id : nat -> string.
Variable now_iso : nat -> string.

(** What the loop leaves besides the counters: the error texts, the
    store, and the progress shown. *)
Lemma commit_loop_effects (user : string) (len : nat)
      (rest : list ImportedPassword.t) :
  forall i st,
    let records := records_from fresh_id now_iso user i rest in
    let st' := commit_loop create fresh_id now_iso user len i rest st in
    ImportResult.errors (result_so_far st')
    = ImportResult.errors (result_so_far st)
      ++ failure_messages rest (responses create (store_now st) records)
    /\ store_now st' = store_after create (store_now st) records
    /\ progress_shown st'
       = match rest with
         | [] => progress_shown st
         | _ :: _ =>
             (Q_of_nat (i + List.length rest) / Q_of_nat len * 100)%Q
         end.
Proof.
  induction rest as [|password rest IH]; intros i st; cbn zeta.
  - cbn [commit_loop records_from responses failure_messages store_after].
    rewrite app_nil_r. auto.
  - cbn [commit_loop records_from responses store_after].
    destruct st as [[total successful failed errors] pr store sub].
    cbn [result_so_far store_now submitted progress_shown].
    destruct (create store (new_record fresh_id now_iso user i password))
      as [store' outcome] eqn:Ecreate.
    match goal with
    | |- context [commit_loop _ _ _ _ _ _ _ ?s] => specialize (IH (S i) s)
    end.
    cbn zeta in IH. cbn [result_so_far store_now submitted progress_shown] in IH.
    destruct IH as (He & Hst & Hpr).
    rewrite He, Hst, Hpr. cbn [fst]. split; [|split].
    + destruct outcome as [error|];
        cbn [failure_messages ImportResult.errors];
        rewrite <- ?app_assoc; reflexivity.
    + reflexivity.
    + destruct rest as [|next rest].
      * cbn [List.length]. first [reflexivity | do 3 f_equal; lia].
      * cbn [List.length]. first [reflexivity | do 3 f_equal; lia].
Qed.

(** Once the user is known, a run over a sequence that is not empty leaves
    one error text per rejected record, in the order of the candidates and
    naming the candidate's title, counts the accepted records as
    successful, and leaves the store as the successive [create] calls
    made it. *)
Theorem commit_reports_each_failure
        (user : string) (previewData : list ImportedPassword.t)
        (ui : ImportState.t) (store : Store) :
  previewData <> [] ->
  let records := records_from fresh_id now_iso user 0 previewData in
  let outcomes := responses create store records in
  exists ui' r,
    handleImport create (Ok user) fresh_id now_iso previewData ui store
    = (ui', store_after create store records, records)
    /\ ImportState.importResult ui' = Some r
    /\ ImportResult.errors r = failure_messages previewData outcomes
    /\ ImportResult.successful r
       = List.length (filter (fun o => negb (rejected o)) outcomes).
Proof.
  intros Hne. cbv zeta.
  destruct ui as [tab importing progress res toasts].
  unfold handleImport.
  destruct previewData as [|c cs]; [contradiction|].
  cbn [List.length Nat.eqb].
  pose proof (commit_loop_spec Store create fresh_id now_iso user
                (S (List.length cs)) (c :: cs) 0
                (mkCommit (ImportResult.mk (S (List.length cs)) 0 0 []) 0%Q
                   store []))
    as H.
  pose proof (commit_loop_effects user (S (List.length cs)) (c :: cs) 0
                (mkCommit (ImportResult.mk (S (List.length cs)) 0 0 []) 0%Q
                   store []))
    as H'.
  cbn zeta in H, H'.
  cbn [result_so_far store_now submitted ImportResult.total
    ImportResult.successful ImportResult.failed ImportResult.errors
    List.length app] in H, H'.
  destruct H as (_ & Hs & _ & _ & Hsub & _).
  destruct H' as (He & Hst & _).
  eexists _, _. split.
  { rewrite Hst, Hsub. reflexivity. }
  cbn [ImportState.importResult]. split; [reflexivity|].
  split; [exact He | exact Hs].
Qed.

(** At the end of such a run the progress shown is 100, the importing
    flag is down and the result tab is active. *)
Theorem commit_ends_complete
        (user : string) (previewData : list ImportedPassword.t)
        (ui : ImportState.t) (store : Store) :
  previewData <> [] ->
  let ui' := fst (fst (handleImport create (Ok user) fresh_id now_iso
                         previewData ui store)) in
  (ImportState.progress ui' == 100)%Q
  /\ ImportState.importing ui' = false
  /\ ImportState.activeTab ui' = "result".
Proof.
  intros Hne. cbv zeta.
  destruct ui as [tab importing progress res toasts].
  unfold handleImport.
  destruct previewData as [|c cs]; [contradiction|].
  cbn [List.length Nat.eqb fst ImportState.progress ImportState.importing
       ImportState.activeTab].
  split; [|split; reflexivity].
  destruct (commit_loop_effects user (S (List.length cs)) (c :: cs) 0
              (mkCommit (ImportResult.mk (S (List.length cs)) 0 0 []) 0%Q
                 store []))
    as (_ & _ & Hpr).
  rewrite Hpr. cbn [List.length Nat.add].
  assert (Hpos : ~ (Q_of_nat (S (List.length cs)) == 0)%Q).
  { unfold Q_of_nat. change 0%Q with (inject_Z 0). rewrite inject_Z_injective.
    lia. }
  field. exact Hpos.
Qed.

(** Nothing is submitted when there is nothing to import or when the user
    cannot be determined: the store is untouched and the result of an
    earlier run stays as it was; in the first case the whole state does. *)
Theorem commit_not_started
        (auth_me : result string) (message : string)
        (previewData : list ImportedPassword.t)
        (ui : ImportState.t) (store : Store) :
  handleImport create auth_me fresh_id now_iso [] ui store = (ui, store, [])
  /\ (let out := handleImport create (Throw message) fresh_id now_iso
                   previewData ui store in
      snd out = []
      /\ snd (fst out) = store
      /\ ImportState.importResult (fst (fst out))
         = ImportState.importResult ui).
Proof.
  destruct ui as [tab importing progress res toasts]. split; [reflexivity|].
  cbv zeta. unfold handleImport.
  destruct (List.length previewData =? 0); cbn; auto.
Qed.

End CommitExtras.

Lemma commit_reports_each_failure_witness :
  exists ui' r,
    handleImport unique_title_store (Ok "user_1") sample_id sample_clock
      three_candidates idle []
    = (ui',
       store_after unique_title_store []
         (records_from sample_id sample_clock "user_1" 0 three_candidates),
       records_from sample_id sample_clock "user_1" 0 three_candidates)
    /\ ImportState.importResult ui' = Some r
    /\ ImportResult.errors r
       = failure_messages three_candidates
           (responses unique_title_store []
              (records_from sample_id sample_clock "user_1" 0 three_candidates))
    /\ ImportResult.successful r
       = List.length
           (filter (fun o => negb (rejected o))
              (responses unique_title_store []
                 (records_from sample_id sample_clock "user_1" 0
                    three_candidates))).
Proof.
  apply (commit_reports_each_failure (list string) unique_title_store
           sample_id sample_clock "user_1" three_candidates idle []).
  discriminate.
Defined.

Lemma commit_ends_complete_witness :
  (ImportState.progress
     (fst (fst (handleImport unique_title_store (Ok "user_1") sample_id
                  sample_clock three_candidates idle []))) == 100)%Q
  /\ ImportState.importing
       (fst (fst (handleImport unique_title_store (Ok "user_1") sample_id
                    sample_clock three_candidates idle []))) = false
  /\ ImportState.activeTab
       (fst (fst (handleImport unique_title_store (Ok "user_1") sample_id
                    sample_clock three_candidates idle []))) = "result".
Proof.
  apply (commit_ends_complete (list string) unique_title_store
           sample_id sample_clock "user_1" three_candidates idle []).
  discriminate.
Defined.

(** ** The note preview *)

Lemma substring_prefix (a t : string) :
  String.substring 0 (String.length a) (a ++ t)%string = a.
Proof. induction a as [|c a IH]; cbn; [destruct t; reflexivity | now rewrite IH]. Qed.

Lemma substring_0_length (n : nat) (s : string) :
  String.length (String.substring 0 n s) = Nat.min n (String.length s).
Proof.
  revert n; induction s as [|c s IH]; intros [|n]; cbn; auto.
Qed.

Lemma length_append (s t : string) :
  String.length (s ++ t)%string = String.length s + String.length t.
Proof. induction s as [|c s IH]; cbn; auto. Qed.

(** Truncating a preview twice changes nothing more, and a preview is at
    most three characters longer than the limit. *)
Theorem truncateContent_idempotent (content : string) (maxLength : Z) :
  truncateContent (truncateContent content maxLength) maxLength
  = truncateContent content maxLength
  /\ String.length (truncateContent content maxLength)
     <= Z.to_nat maxLength + 3.
Proof.
  unfold truncateContent.
  destruct (Z.leb_spec (Z.of_nat (String.length content)) maxLength) as [Hle|Hgt].
  - destruct (Z.leb_spec (Z.of_nat (String.length content)) maxLength);
      [|lia]. split; [reflexivity | lia].
  - set (cut := String.substring 0 (Z.to_nat maxLength) content).
    assert (Hcut : String.length cut = Z.to_nat maxLength).
    { unfold cut. rewrite substring_0_length. lia. }
    assert (Hlen : String.length (cut ++ "...")%string = Z.to_nat maxLength + 3).
    { rewrite length_append, Hcut. reflexivity. }
    rewrite Hlen.
    destruct (Z.leb_spec (Z.of_nat (Z.to_nat maxLength + 3)) maxLength); [lia|].
    split; [|lia].
    rewrite <- Hcut at 1. now rewrite substring_prefix.
Qed.

(** ** The label of a password that passes every check *)

(** A password of twelve characters or more that holds all four classes,
    no common pattern and no match of the repeated-character pattern
    reaches the top score 5 and is therefore shown as Very Weak: the
    passwords the scorer rates best get its lowest label. *)
Theorem best_passwords_labelled_very_weak (password : string) :
  12 <= String.length password ->
  test re_lower password = true ->
  test re_upper password = true ->
  test re_digit password = true ->
  test re_non_alnum password = true ->
  test_common password = false ->
  test re_repeated password = false ->
  PasswordStrength.score (analyzeStrength password) = 5%Z
  /\ PasswordStrength.label (analyzeStrength password) = "Very Weak".
Proof.
  intros H12 Hl Hu Hd Hs Hc Hr.
  assert (Hscore : PasswordStrength.score (analyzeStrength password) = 5%Z).
  { unfold analyzeStrength. rewrite Hl, Hu, Hd, Hs, Hc, Hr.
    destruct (Nat.leb_spec 12 (String.length password)); [|lia].
    destruct (16 <=? String.length password), (test re_symbol password);
      reflexivity. }
  split; [exact Hscore|].
  rewrite analyzeStrength_label, Hscore. reflexivity.
Qed.

Lemma best_passwords_labelled_very_weak_witness :
  PasswordStrength.score (analyzeStrength "c0rrect-Horse-7") = 5%Z
  /\ PasswordStrength.label (analyzeStrength "c0rrect-Horse-7") = "Very Weak".
Proof.
  apply (best_passwords_labelled_very_weak "c0rrect-Horse-7");
    try reflexivity.
  simpl. lia.
Defined.
